(** * PipelineRL: the fine-tuning telemetry glue, [pipelinerl/finetune/logging_.py]

    A shallow embedding of the module and the properties its
    specification states about it.  Four of its functions are modelled
    ([log_time], a stopwatch around [time.perf_counter], is not):

    - [flatten_dict_config], a pure recursive function on nested mappings;
    - [init_wandb], which derives the name, identifier and resume policy of
      a tracking run and calls the tracking client;
    - [setup_logging], which configures the process loggers and, on the
      coordinator process, starts the run and writes [wandb_info.json];
    - [log_metrics], which logs a rounded summary and forwards the numeric
      metrics to the tracking run.

    Python dictionaries are association lists in insertion order, with
    Python's key equality ([1 == True]).  Effects are events appended to a
    trace; exceptions are the left injection of the result.  The tracking
    client, the accelerator and the installed distributions are answers of
    an environment record. *)

From Stdlib Require Import String Ascii List ZArith Lia Bool Arith.
From Stdlib Require Import Floats DecimalString.
Import ListNotations.

Local Open Scope string_scope.
Local Open Scope list_scope.

(** ** Python strings *)

(** A [str] is a [string], one [ascii] for each character. *)

(** [s[n:]] *)
Fixpoint str_drop (n : nat) (s : string) : string :=
  match n, s with
  | O, _ => s
  | S _, EmptyString => EmptyString
  | S n', String _ s' => str_drop n' s'
  end.

(** [s[:n]] *)
Definition str_take (n : nat) (s : string) : string := substring 0 n s.

(** [s.replace(old, new)] for one-character [old] and [new]. *)
Fixpoint str_replace_char (old new : ascii) (s : string) : string :=
  match s with
  | EmptyString => EmptyString
  | String c s' =>
      String (if Ascii.eqb c old then new else c) (str_replace_char old new s')
  end.

(** [s.startswith(p)] *)
Definition startswith (s p : string) : bool := prefix p s.

(** [str(z)] for an int. *)
Definition str_of_int (z : Z) : string := NilZero.string_of_int (Z.to_int z).

(** ** Python values *)

(** Dictionary keys: the hashable builtins a configuration uses. *)
Inductive pykey : Type :=
| KStr (s : string)
| KInt (z : Z)
| KBool (b : bool)
| KNone.

(** Values.  [VOther] is an object of any other class, one that derives
    from none of the classes above (a tensor, a [Decimal], ...), given by
    its answers to the two protocol calls the module makes on a value:
    [bool(v)] and [format(v, ".3f")], the latter [None] when the class
    does not support the format. *)
#[warnings="-register-all"] Inductive pyval : Type :=
| VNone
| VBool (b : bool)
| VInt (z : Z)
| VFloat (f : float)
| VStr (s : string)
| VList (l : list pyval)
| VDict (d : list (pykey * pyval))
| VOther (truth : bool) (fmt3f : option string).

(** A [dict] or [DictConfig]: the items in insertion order. *)
Definition pydict : Type := list (pykey * pyval).

(** [isinstance(v, DictConfig) or isinstance(v, dict)] *)
Definition is_mapping (v : pyval) : bool :=
  match v with VDict _ => true | _ => false end.

(** [isinstance(v, (int, float))]; [bool] is a subclass of [int]. *)
Definition is_int_or_float (v : pyval) : bool :=
  match v with
  | VBool _ | VInt _ | VFloat _ => true
  | _ => false
  end.

(** [bool(v)], the test of [if v:] and [if not v:]. *)
Definition truthy (v : pyval) : bool :=
  match v with
  | VNone => false
  | VBool b => b
  | VInt z => negb (Z.eqb z 0)
  | VFloat f => negb (PrimFloat.eqb f 0%float)
  | VStr s => negb (String.eqb s "")
  | VList l => match l with [] => false | _ => true end
  | VDict d => match d with [] => false | _ => true end
  | VOther t _ => t
  end.

(** [v == s] for a string literal [s]: only a [str] equals a [str]. *)
Definition eq_str (v : pyval) (s : string) : bool :=
  match v with VStr t => String.eqb t s | _ => false end.

(** [str(k)] *)
Definition str_of_key (k : pykey) : string :=
  match k with
  | KStr s => s
  | KInt z => str_of_int z
  | KBool true => "True"
  | KBool false => "False"
  | KNone => "None"
  end.

(** ** Dictionaries *)

(** The number a key equals, if any: [True == 1] and [False == 0]. *)
Definition key_num (k : pykey) : option Z :=
  match k with
  | KInt z => Some z
  | KBool true => Some 1%Z
  | KBool false => Some 0%Z
  | _ => None
  end.

(** [k1 == k2] on keys (equal keys hash alike). *)
Definition key_eqb (k1 k2 : pykey) : bool :=
  match k1, k2 with
  | KStr a, KStr b => String.eqb a b
  | KNone, KNone => true
  | _, _ =>
      match key_num k1, key_num k2 with
      | Some a, Some b => Z.eqb a b
      | _, _ => false
      end
  end.

(** [d[k] = v]: an equal key keeps its place and its first key object and
    takes the new value; a new key goes last. *)
Fixpoint dict_set (d : pydict) (k : pykey) (v : pyval) : pydict :=
  match d with
  | [] => [(k, v)]
  | (k', v') :: rest =>
      if key_eqb k' k then (k', v) :: rest
      else (k', v') :: dict_set rest k v
  end.

(** [k in d] *)
Definition dict_mem (d : pydict) (k : pykey) : bool :=
  existsb (fun kv => key_eqb (fst kv) k) d.

(** [d.update(other)], and the loop [for k, v in items: d[k] = v]. *)
Definition dict_update (d other : pydict) : pydict :=
  fold_left (fun r kv => dict_set r (fst kv) (snd kv)) other d.

(** The invariant of a Python dictionary: no two keys are equal. *)
Fixpoint dict_wf (d : pydict) : bool :=
  match d with
  | [] => true
  | (k, _) :: rest => negb (dict_mem rest k) && dict_wf rest
  end.

(** The same invariant at every depth of a nested mapping. *)
Fixpoint deep_wf (v : pyval) : bool :=
  match v with
  | VDict d =>
      dict_wf d &&
      (fix all (items : pydict) : bool :=
         match items with
         | [] => true
         | (_, v') :: rest => deep_wf v' && all rest
         end) d
  | _ => true
  end.

(** ** [flatten_dict_config] *)

(** The inner loop, lines 142-143: the items of the flattened sub-mapping
    enter [result] under [str(k) + separator + str(sub_k)]. *)
Definition add_nested (separator : string) (k : pykey) (sub result : pydict)
  : pydict :=
  fold_left
    (fun r kv =>
       dict_set r (KStr (str_of_key k ++ separator ++ str_of_key (fst kv)))
                (snd kv))
    sub result.

(** The default of the [separator] argument. *)
Definition default_separator : string := ".".

(** Lines 138-146 on the mapping [v].  The recursive call of line 142
    passes no separator, so nested levels are joined with the default. *)
Fixpoint flatten_value (v : pyval) (separator : string) {struct v} : pydict :=
  match v with
  | VDict d =>
      (fix loop (items : pydict) (result : pydict) {struct items} : pydict :=
         match items with
         | [] => result
         | (k, v') :: rest =>
             loop rest
               (if is_mapping v'
                then add_nested separator k
                       (flatten_value v' default_separator) result
                else dict_set result k v')
         end) d []
  | _ => []
  end.

Definition flatten_dict_config (d : pydict) (separator : string) : pydict :=
  flatten_value (VDict d) separator.

(** The leaves of a nested mapping in traversal order, each with the keys
    on the way to it. *)
Fixpoint leaves (v : pyval) : list (list pykey * pyval) :=
  match v with
  | VDict d =>
      (fix go (items : pydict) : list (list pykey * pyval) :=
         match items with
         | [] => []
         | (k, v') :: rest =>
             (if is_mapping v'
              then map (fun pv => (k :: fst pv, snd pv)) (leaves v')
              else [([k], v')]) ++ go rest
         end) d
  | _ => []
  end.

(** The keys of a path, each through [str], joined with dots. *)
Definition dotted (p : list pykey) : string :=
  String.concat default_separator (map str_of_key p).

(** The key under which the leaf at path [p] is stored: a top-level key is
    stored as it is, a longer path as a string, its first step joined by
    [separator] and the later ones by the default. *)
Definition path_key (separator : string) (p : list pykey) : pykey :=
  match p with
  | [] => KStr ""
  | [k] => k
  | k :: rest => KStr (str_of_key k ++ separator ++ dotted rest)
  end.

(** ** [format(v, ".3f")] *)

(** Three digits after the point of [n] thousandths. *)
Definition pad3 (n : Z) : string :=
  let s := str_of_int n in
  match String.length s with
  | 1 => "00" ++ s
  | 2 => "0" ++ s
  | _ => s
  end.

Definition fixed3 (neg : bool) (thousandths : Z) : string :=
  (if neg then "-" else "") ++
  str_of_int (thousandths / 1000) ++ "." ++ pad3 (thousandths mod 1000).

(** [num / den] rounded to the nearest integer, ties to even. *)
Definition round_half_even (num den : Z) : Z :=
  let q := (num / den)%Z in
  let r := (num mod den)%Z in
  if (2 * r <? den)%Z then q
  else if (den <? 2 * r)%Z then (q + 1)%Z
  else if Z.even q then q else (q + 1)%Z.

(** A binary64 value in fixed point with three decimals, correctly
    rounded. *)
Definition format_float_3f (x : spec_float) : string :=
  match x with
  | S754_nan => "nan"
  | S754_infinity s => if s then "-inf" else "inf"
  | S754_zero s => fixed3 s 0
  | S754_finite s m e =>
      fixed3 s
        (if (0 <=? e)%Z then (Zpos m * 1000 * 2 ^ e)%Z
         else round_half_even (Zpos m * 1000) (2 ^ (- e)))
  end.

(** [float(z)] for an int: the nearest binary64, infinite on overflow. *)
Definition float_of_int (z : Z) : spec_float :=
  binary_normalize prec emax z 0 false.

(** ** Exceptions *)

(** What the message of an exception is built from. *)
Inductive detail : Type :=
| UnknownResume (v : pyval)            (* line 44 *)
| NotUnderRoot (run_dir root : string) (* line 50 *)
| InitFailed                           (* line 73 *)
| BadConcat (v : pyval)                (* [root + "/"], line 49 *)
| BadFormat (v : pyval).               (* [f"{v:.3f}"], line 123 *)

(** The subclasses of [Exception] the module meets; [ClientError] is
    whatever the tracking client or [cfg.dict()] raises. *)
Inductive exn : Type :=
| NotImplementedError
| ValueError (d : detail)
| TypeError (d : detail)
| OverflowError (d : detail)
| ClientError (msg : string).

(** A value, or the exception raised instead. *)
Definition outcome (A : Type) : Type := (exn + A)%type.

(** [f"{v:.3f}"]: an int goes through [float], a [str] rejects the format
    code, [None] and the containers reject any format string. *)
Definition format_3f (v : pyval) : outcome string :=
  match v with
  | VBool b => inr (format_float_3f (float_of_int (if b then 1 else 0)))
  | VInt z =>
      match float_of_int z with
      | S754_infinity _ => inl (OverflowError (BadFormat v))
      | x => inr (format_float_3f x)
      end
  | VFloat f => inr (format_float_3f (Prim2SF f))
  | VStr _ => inl (ValueError (BadFormat v))
  | VOther _ (Some s) => inr s
  | VNone | VList _ | VDict _ | VOther _ None => inl (TypeError (BadFormat v))
  end.

(** ** The world of the module *)

(** The arguments of [wandb.init], lines 61-71. *)
Record InitArgs : Type := {
  wi_name : string;
  wi_entity : pyval;
  wi_project : pyval;
  wi_group : pyval;
  wi_dir : pyval;
  wi_config : pydict;
  wi_resume : string;
  wi_id : pyval;
  wi_tags : pyval
}.

(** What the module reads of a [wandb_run.Run]. *)
Record Run : Type := {
  run_name : string;
  run_entity : string;
  run_project_name : string;
  run_id : string
}.

(** What [wandb.init] returns: a [Run], or an object of another class. *)
Inductive init_result : Type :=
| InitRun (r : Run)
| InitOther.

(** The three loggers: [logger] of [.context], the root logger behind
    [logging.info], and the [logger] argument of [log_metrics]. *)
Inductive logger_id : Type := LContext | LRoot | LArgument.

Inductive level : Type := INFO | WARNING | ERROR.

(** A log record, by the values its message interpolates. *)
Inductive message : Type :=
| MsgTruncating (wandb_name : string)                        (* line 58 *)
| MsgInitializing (name : string) (id : pyval) (resume : string) (* line 60 *)
| MsgInitFailed (e : exn)                                    (* line 99 *)
| MsgCompleted (completed_steps : Z) (metrics_pretty : pydict) (* line 124 *)
| MsgLogFailed (e : exn).                                    (* line 129 *)

(** A file below the output directory. *)
Record path : Type := { base : string; below : string }.

(** The calls that leave the process or change it; the two calls of the
    tracking client carry its answer. *)
Inductive event : Type :=
| EMkdir (p : path)                                  (* line 79 *)
| ELogFile (p : path)                                (* line 80 *)
| EBasicConfig                                       (* lines 82-88 *)
| ESetLevel (l : level)                              (* lines 93, 113 *)
| ELog (who : logger_id) (l : level) (m : message)
| EWandbInit (args : InitArgs) (answer : outcome init_result)
| EWandbLog (metrics : pydict) (step : Z) (answer : outcome unit)
| EJsonDump (p : path) (content : list (string * string)) (* lines 110-111 *)
| EVerbosityError (library : string).                (* lines 114-115 *)

Definition trace : Type := list event.

(** A computation: from the trace so far to a value or an exception, and
    the trace extended. *)
Definition M (A : Type) : Type := trace -> outcome A * trace.

Definition ret {A : Type} (a : A) : M A := fun t => (inr a, t).

Definition raise {A : Type} (e : exn) : M A := fun t => (inl e, t).

Definition bind {A B : Type} (m : M A) (k : A -> M B) : M B :=
  fun t =>
    match m t with
    | (inr a, t') => k a t'
    | (inl e, t') => (inl e, t')
    end.

Definition emit (e : event) : M unit := fun t => (inr tt, t ++ [e]).

Definition lift {A : Type} (r : outcome A) : M A := fun t => (r, t).

(** [try: m except Exception as e: handler e] *)
Definition try_except {A : Type} (m : M A) (handler : exn -> M A) : M A :=
  fun t =>
    match m t with
    | (inr a, t') => (inr a, t')
    | (inl e, t') => handler e t'
    end.

Notation "x <- m ;; k" := (bind m (fun x => k))
  (at level 61, m at next level, right associativity).
Notation "m ;; k" := (bind m (fun _ => k))
  (at level 61, right associativity).

(** What the module asks of its surroundings. *)
Record Env : Type := {
  (** [get_accelerator().is_main_process] *)
  is_main_process : bool;
  (** [get_accelerator().process_index] *)
  process_index : Z;
  (** [str(k), str(v)] for the items of [get_accelerator().state.__dict__] *)
  accelerator_state : list (string * string);
  (** name and version of each of [distributions()] *)
  distributions : list (string * string);
  (** the answer of [wandb.init] *)
  wandb_init : InitArgs -> outcome init_result;
  (** the answer of [wandb.log] *)
  wandb_log : pydict -> Z -> outcome unit
}.

(** [cfg.finetune], the fields the module reads. *)
Record Finetune : Type := {
  wandb_resume : pyval;
  wandb_workspace_root : pyval;
  wandb_id : pyval;
  wandb_entity_name : pyval;
  wandb_project_name : pyval;
  wandb_group : pyval;
  wandb_dir : pyval;
  tags : pyval;
  use_wandb : pyval
}.

(** [cfg]: its [finetune] node by attribute, its items as a mapping, and
    the answer of [cfg.dict()]. *)
Record Config : Type := {
  finetune : Finetune;
  cfg_items : pydict;
  cfg_dict : outcome pydict
}.

(** ** [init_wandb] *)

(** Lines 32-34. *)
Definition python_env (dists : list (string * string)) : pydict :=
  fold_left (fun d nv => dict_set d (KStr (fst nv)) (VStr (snd nv))) dists [].

(** Lines 37-44. *)
Definition resume_policy (v : pyval) : M string :=
  if eq_str v "always" then ret "allow"
  else if eq_str v "never" then ret "never"
  else if eq_str v "if_not_interactive" then raise NotImplementedError
  else raise (ValueError (UnknownResume v)).

(** Lines 46-51, from [str(run_dir)]. *)
Definition derive_name (run_dir : string) (root : pyval) : M string :=
  let wandb_name := run_dir in
  if truthy root then
    match root with
    | VStr r =>
        if negb (startswith wandb_name (r ++ "/"))
        then raise (ValueError (NotUnderRoot run_dir r))
        else ret (str_drop (String.length r + 1) wandb_name)
    | _ => raise (TypeError (BadConcat root))
    end
  else ret wandb_name.

(** Lines 53-55. *)
Definition derive_id (configured : pyval) (wandb_name : string) : pyval :=
  if negb (truthy configured)
  then VStr (str_replace_char "/" "_" wandb_name)
  else configured.

Definition call_wandb_init (env : Env) (args : InitArgs) : M init_result :=
  fun t => (wandb_init env args, t ++ [EWandbInit args (wandb_init env args)]).

(** Lines 19-74; [run_dir] is [str(run_dir)].  The assignment of line 35
    is on the caller's dictionary; [setup_logging], the caller in this
    module, does not read it again. *)
Definition init_wandb (env : Env) (cfg : Config) (run_dir : string)
    (config_for_wandb : option pydict) : M Run :=
  config_for_wandb <-
    match config_for_wandb with
    | None => lift (cfg_dict cfg)
    | Some c => ret c
    end ;;
  let config_for_wandb :=
    dict_set config_for_wandb (KStr "python_env")
             (VDict (python_env (distributions env))) in
  resume <- resume_policy (wandb_resume (finetune cfg)) ;;
  wandb_name <- derive_name run_dir (wandb_workspace_root (finetune cfg)) ;;
  let wandb_id := derive_id (wandb_id (finetune cfg)) wandb_name in
  (if (128 <? String.length wandb_name)%nat
   then emit (ELog LContext WARNING (MsgTruncating wandb_name))
   else ret tt) ;;
  emit (ELog LRoot INFO
          (MsgInitializing (str_take 128 wandb_name) wandb_id resume)) ;;
  run <- call_wandb_init env
           {| wi_name := str_take 128 wandb_name;
              wi_entity := wandb_entity_name (finetune cfg);
              wi_project := wandb_project_name (finetune cfg);
              wi_group := wandb_group (finetune cfg);
              wi_dir := wandb_dir (finetune cfg);
              wi_config := config_for_wandb;
              wi_resume := resume;
              wi_id := wandb_id;
              wi_tags := tags (finetune cfg) |} ;;
  match run with
  | InitRun r => ret r
  | InitOther => raise (ValueError InitFailed)
  end.

(** ** [setup_logging] *)

(** Line 90. *)
Definition state_config (state : list (string * string)) : pydict :=
  fold_left (fun d kv => dict_set d (KStr (fst kv)) (VStr (snd kv))) state [].

(** Lines 101-108. *)
Definition wandb_info (run : option Run) : list (string * string) :=
  match run with
  | Some r =>
      [("name", str_take 128 (run_name r));
       ("entity", run_entity r);
       ("project", run_project_name r);
       ("id", run_id r)]
  | None => []
  end.

(** Lines 90-91. *)
Definition coordinator_config (env : Env) (cfg : Config) : pydict :=
  dict_update (state_config (accelerator_state env))
              (flatten_dict_config (cfg_items cfg) default_separator).

(** Lines 77-115; [output_dir] is [str(output_dir)].  The function is
    modelled on inputs it can work through: the directory and the files
    of lines 79-80 and 110-111 can be written, the items of [cfg] can be
    read (line 91), and a run has a string for a name (line 104).  On
    other inputs the source raises outside the [try] block; no property
    below is about them. *)
Definition setup_logging (env : Env) (cfg : Config) (output_dir : string)
    (run : option Run) : M unit :=
  emit (EMkdir {| base := output_dir; below := "log" |}) ;;
  emit (ELogFile
          {| base := output_dir;
             below :=
               "log/info_" ++ str_of_int (process_index env) ++ ".log" |}) ;;
  emit EBasicConfig ;;
  (if is_main_process env then
     let config_for_wandb := coordinator_config env cfg in
     emit (ESetLevel INFO) ;;
     run <-
       (match run with
        | None =>
            if truthy (use_wandb (finetune cfg)) then
              try_except
                (r <- init_wandb env cfg output_dir (Some config_for_wandb) ;;
                 ret (Some r))
                (fun e =>
                   emit (ELog LContext WARNING (MsgInitFailed e)) ;;
                   ret None)
            else ret run
        | Some _ => ret run
        end) ;;
     emit (EJsonDump {| base := output_dir; below := "wandb_info.json" |}
                     (wandb_info run))
   else emit (ESetLevel ERROR)) ;;
  emit (EVerbosityError "datasets") ;;
  emit (EVerbosityError "transformers").

(** ** [log_metrics] *)

(** Whether [f"{v:.3f}"] returns. *)
Definition supports_3f (v : pyval) : bool :=
  match format_3f v with inr _ => true | inl _ => false end.

(** Line 123: [{k: f"{v:.3f}" for k, v in metrics.items()}], which stops
    at the first value that rejects the format. *)
Fixpoint pretty_items (items result : pydict) : outcome pydict :=
  match items with
  | [] => inr result
  | (k, v) :: rest =>
      match format_3f v with
      | inl e => inl e
      | inr s => pretty_items rest (dict_set result k (VStr s))
      end
  end.

(** Line 126:
    [{k: v for k, v in metrics.items() if isinstance(v, (int, float))}] *)
Definition numeric_items (metrics : pydict) : pydict :=
  fold_left
    (fun r kv =>
       if is_int_or_float (snd kv) then dict_set r (fst kv) (snd kv) else r)
    metrics [].

Definition call_wandb_log (env : Env) (metrics : pydict) (step : Z) : M unit :=
  fun t =>
    (wandb_log env metrics step,
     t ++ [EWandbLog metrics step (wandb_log env metrics step)]).

(** Lines 118-129; the [logger] argument is [LArgument]. *)
Definition log_metrics (env : Env) (completed_steps : Z) (metrics : pydict)
  : M unit :=
  if negb (is_main_process env) then ret tt
  else
    metrics_pretty <- lift (pretty_items metrics []) ;;
    emit (ELog LArgument INFO (MsgCompleted completed_steps metrics_pretty)) ;;
    try_except
      (let metrics := numeric_items metrics in
       call_wandb_log env metrics completed_steps)
      (fun e => emit (ELog LArgument ERROR (MsgLogFailed e))).

(** ** Reading a trace *)

(** The calls of [wandb.init] in a trace. *)
Definition init_calls (t : trace) : list InitArgs :=
  flat_map (fun e => match e with EWandbInit a _ => [a] | _ => [] end) t.

(** The runs the tracking client started. *)
Definition started_runs (t : trace) : list Run :=
  flat_map
    (fun e => match e with EWandbInit _ (inr (InitRun r)) => [r] | _ => [] end)
    t.

(** The metrics forwarded to the tracking run, each with its step. *)
Definition forwarded (t : trace) : list (pydict * Z) :=
  flat_map (fun e => match e with EWandbLog m s _ => [(m, s)] | _ => [] end) t.

(** The JSON files written. *)
Definition json_dumps (t : trace) : list (path * list (string * string)) :=
  flat_map (fun e => match e with EJsonDump p c => [(p, c)] | _ => [] end) t.

(** Running a computation from the empty trace. *)
Definition run_M {A : Type} (m : M A) : outcome A * trace := m [].

(** ** Definitions for the proofs *)

(** An item of the flattened sub-mapping of [k], as line 143 assigns it. *)
Definition rekey (separator : string) (k : pykey) (kv : pykey * pyval)
  : pykey * pyval :=
  (KStr (str_of_key k ++ separator ++ str_of_key (fst kv)), snd kv).

(** The assignments [result[key] = value] that [flatten_dict_config]
    performs on [items], in order. *)
Definition assignments (separator : string) (items : pydict) : pydict :=
  flat_map
    (fun kv =>
       if is_mapping (snd kv)
       then map (rekey separator (fst kv))
                (flatten_value (snd kv) default_separator)
       else [kv])
    items.

(** The call of the tracking client, when the policy and the name are
    accepted. *)
Definition init_args env cfg (c : pydict) (resume wandb_name : string)
  : InitArgs :=
  {| wi_name := str_take 128 wandb_name;
     wi_entity := wandb_entity_name (finetune cfg);
     wi_project := wandb_project_name (finetune cfg);
     wi_group := wandb_group (finetune cfg);
     wi_dir := wandb_dir (finetune cfg);
     wi_config :=
       dict_set c (KStr "python_env") (VDict (python_env (distributions env)));
     wi_resume := resume;
     wi_id := derive_id (wandb_id (finetune cfg)) wandb_name;
     wi_tags := tags (finetune cfg) |}.

(** Keys that are equal only when they are the same object. *)
Definition coherent (ks : list pykey) : Prop :=
  forall k1 k2, In k1 ks -> In k2 ks -> key_eqb k1 k2 = true -> k1 = k2.

(** A computation that only appends to the trace, whatever came before. *)
Definition appends {A : Type} (m : M A) : Prop :=
  forall t, m t = (fst (m []), t ++ snd (m [])).

(** The limit of the tracking service on a name: what the specification
    asks of both the display name and the identifier of a call. *)
Definition within_limit (a : InitArgs) : Prop :=
  String.length (wi_name a) <= 128 /\
  forall s, wi_id a = VStr s -> String.length s <= 128.

(** The entries of [metrics] with a numeric value. *)
Definition numeric_entries (metrics : pydict) : pydict :=
  filter (fun kv => is_int_or_float (snd kv)) metrics.

(** Lines 94-99 on the coordinator: the run that [setup_logging] goes on
    with, and the events of getting it. *)
Definition start_run (env : Env) (cfg : Config) (output_dir : string)
    (run : option Run) : option Run * trace :=
  match run with
  | Some _ => (run, [])
  | None =>
      if truthy (use_wandb (finetune cfg)) then
        match run_M (init_wandb env cfg output_dir
                       (Some (coordinator_config env cfg))) with
        | (inr r, evs) => (Some r, evs)
        | (inl e, evs) =>
            (None, evs ++ [ELog LContext WARNING (MsgInitFailed e)])
        end
      else (None, [])
  end.

(** Where [setup_logging] writes the summary of the run. *)
Definition info_path (output_dir : string) : path :=
  {| base := output_dir; below := "wandb_info.json" |}.

(** ** Sample inputs *)

Fixpoint str_repeat (c : ascii) (n : nat) : string :=
  match n with
  | O => EmptyString
  | S n' => String c (str_repeat c n')
  end.

(** A tracking client that starts the run it is asked for. *)
Definition client_up (a : InitArgs) : outcome init_result :=
  inr (InitRun {| run_name := wi_name a;
                  run_entity := "team";
                  run_project_name := "rl";
                  run_id := match wi_id a with VStr s => s | _ => "" end |}).

(** A tracking client that cannot be reached. *)
Definition client_down (a : InitArgs) : outcome init_result :=
  inl (ClientError "connection refused").

Definition sample_env (main : bool) (init : InitArgs -> outcome init_result)
  : Env :=
  {| is_main_process := main;
     process_index := if main then 0 else 1;
     accelerator_state := [("num_processes", "2")];
     distributions := [("torch", "2.6.0")];
     wandb_init := init;
     wandb_log := fun _ _ => inr tt |}.

Definition sample_finetune (resume root : pyval) : Finetune :=
  {| wandb_resume := resume;
     wandb_workspace_root := root;
     wandb_id := VNone;
     wandb_entity_name := VNone;
     wandb_project_name := VStr "rl";
     wandb_group := VNone;
     wandb_dir := VNone;
     tags := VList [];
     use_wandb := VBool true |}.

Definition sample_cfg (resume root : pyval) : Config :=
  {| finetune := sample_finetune resume root;
     cfg_items := [(KStr "finetune", VDict [(KStr "use_wandb", VBool true)])];
     cfg_dict := inr [] |}.

(** Metrics with a value that is not a number. *)
Definition mixed_metrics : pydict :=
  [(KStr "loss", VFloat 0.5%float); (KStr "split", VStr "train")].

(** The mapping of the specification's example. *)
Definition nested_example : pydict :=
  [(KStr "a", VDict [(KStr "b", VInt 1);
                     (KStr "c", VDict [(KStr "d", VInt 2)])])].

(** ** [log_time] *)

(** [d.get(k)] *)
Fixpoint dict_get (d : pydict) (k : pykey) : option pyval :=
  match d with
  | [] => None
  | (k', v') :: rest => if key_eqb k' k then Some v' else dict_get rest k
  end.

(** Lines 132-135; [now] is the answer of [time.perf_counter()].  The
    dictionary is the caller's: the call returns the reading and leaves
    the dictionary changed, here returned beside the reading. *)
Definition log_time (now : float) (start_time : float) (stats_dict : pydict)
    (msg : string) : float * pydict :=
  let t := now in
  (t, dict_set stats_dict (KStr msg) (VFloat (t - start_time)%float)).

(** ** More definitions for the proofs *)

(** The items that a mapping flattens to when no two of its leaves meet
    under one key: the leaves in traversal order, each under the key of
    its path. *)
Definition flat_items (separator : string) (v : pyval) : pydict :=
  map (fun pv => (path_key separator (fst pv), snd pv)) (leaves v).

(** The dotted paths of the leaves. *)
Definition dotted_paths (v : pyval) : list string :=
  map (fun pv => dotted (fst pv)) (leaves v).

(** No string occurs twice. *)
Fixpoint distinct (l : list string) : bool :=
  match l with
  | [] => true
  | s :: rest => negb (existsb (String.eqb s) rest) && distinct rest
  end.

(** [isinstance(v, str)] *)
Definition is_str (v : pyval) : bool :=
  match v with VStr _ => true | _ => false end.

(** [c in s] *)
Fixpoint str_mem (c : ascii) (s : string) : bool :=
  match s with
  | EmptyString => false
  | String c' s' => Ascii.eqb c' c || str_mem c s'
  end.

(** What [f"{v:.3f}"] returns, for a value that supports the format. *)
Definition rendered (v : pyval) : string :=
  match format_3f v with inr s => s | inl _ => "" end.

(** The events of [setup_logging] between the logger configuration and
    the two verbosity calls. *)
Definition role_events (env : Env) (cfg : Config) (output_dir : string)
    (run : option Run) : trace :=
  if is_main_process env then
    [ESetLevel INFO] ++ snd (start_run env cfg output_dir run)
      ++ [EJsonDump (info_path output_dir)
            (wandb_info (fst (start_run env cfg output_dir run)))]
  else [ESetLevel ERROR].

(** * Properties *)

(** ** Strings *)

Lemma str_take_length (n : nat) (s : string) :
  String.length (str_take n s) = Nat.min n (String.length s).
Proof.
  unfold str_take. revert n.
  induction s as [|c s IH]; intros [|n]; simpl; auto.
Qed.

Lemma str_replace_char_length (old new : ascii) (s : string) :
  String.length (str_replace_char old new s) = String.length s.
Proof. induction s as [|c s IH]; simpl; congruence. Qed.

Lemma str_length_app (s1 s2 : string) :
  String.length (s1 ++ s2)%string = String.length s1 + String.length s2.
Proof. induction s1 as [|c s1 IH]; simpl; congruence. Qed.

(** A string that starts with [p] is [p] followed by its remainder. *)
Lemma startswith_split (s p : string) :
  startswith s p = true -> s = (p ++ str_drop (String.length p) s)%string.
Proof.
  unfold startswith. revert s.
  induction p as [|c p IH]; intros s H; simpl.
  - destruct s; reflexivity.
  - destruct s as [|c' s]; simpl in H; [discriminate|].
    destruct (ascii_dec c c') as [->|]; [|discriminate].
    f_equal. apply IH, H.
Qed.

Lemma eq_str_true (v : pyval) (s : string) :
  eq_str v s = true <-> v = VStr s.
Proof.
  destruct v; simpl; split; intro H; try discriminate.
  - apply String.eqb_eq in H. congruence.
  - inversion H. apply String.eqb_refl.
Qed.

(** ** Dictionaries *)

Lemma key_eqb_refl (k : pykey) : key_eqb k k = true.
Proof.
  destruct k as [s|z|[|]|]; simpl; auto using String.eqb_refl, Z.eqb_refl.
Qed.

Lemma key_eqb_sym (k1 k2 : pykey) : key_eqb k1 k2 = key_eqb k2 k1.
Proof.
  destruct k1 as [s1|z1|[|]|], k2 as [s2|z2|[|]|]; simpl;
    auto using String.eqb_sym, Z.eqb_sym.
Qed.

(** A string key equals only itself. *)
Lemma key_eqb_str_l (s : string) (k : pykey) :
  key_eqb (KStr s) k = true -> k = KStr s.
Proof.
  destruct k as [s'|z|[|]|]; simpl; try discriminate.
  intro H. apply String.eqb_eq in H. congruence.
Qed.

Lemma key_eqb_str_r (s : string) (k : pykey) :
  key_eqb k (KStr s) = true -> k = KStr s.
Proof. rewrite key_eqb_sym. apply key_eqb_str_l. Qed.

Lemma dict_mem_false (d : pydict) (k : pykey) :
  dict_mem d k = false <-> forall k' v, In (k', v) d -> key_eqb k' k = false.
Proof.
  unfold dict_mem. split.
  - intros H k' v Hin.
    destruct (key_eqb k' k) eqn:E; [|reflexivity].
    rewrite <- H. symmetry. apply existsb_exists. now exists (k', v).
  - intro H. destruct (existsb _ d) eqn:E; [|reflexivity].
    apply existsb_exists in E. destruct E as ([k' v] & Hin & Hk).
    simpl in Hk. now rewrite (H k' v Hin) in Hk.
Qed.

Lemma dict_mem_app (d1 d2 : pydict) (k : pykey) :
  dict_mem (d1 ++ d2) k = dict_mem d1 k || dict_mem d2 k.
Proof. apply existsb_app. Qed.

(** Setting a key that the dictionary does not hold appends the item. *)
Lemma dict_set_fresh (d : pydict) (k : pykey) (v : pyval) :
  dict_mem d k = false -> dict_set d k v = d ++ [(k, v)].
Proof.
  induction d as [|[k' v'] d IH]; simpl; [reflexivity|].
  intro H. apply orb_false_iff in H. destruct H as [Hk Hd].
  rewrite Hk. f_equal. now apply IH.
Qed.

(** ** Nested mappings *)

(** Induction on a value through the mappings nested in it. *)
Lemma pyval_nested_ind (P : pyval -> Prop) :
  (forall v, is_mapping v = false -> P v) ->
  (forall d, Forall (fun kv => P (snd kv)) d -> P (VDict d)) ->
  forall v, P v.
Proof.
  intros Hleaf Hdict.
  fix IH 1.
  intros [ | b | z | f | s | l | d | tr fmt ]; try (apply Hleaf; reflexivity).
  apply Hdict.
  induction d as [|[k v] d IHd]; constructor; [apply IH|exact IHd].
Qed.

Lemma deep_wf_dict (d : pydict) :
  deep_wf (VDict d) = dict_wf d && forallb (fun kv => deep_wf (snd kv)) d.
Proof.
  simpl. f_equal.
  induction d as [|[k v] d IH]; simpl; [reflexivity|now rewrite IH].
Qed.

Lemma leaves_dict (d : pydict) :
  leaves (VDict d) =
  flat_map
    (fun kv =>
       if is_mapping (snd kv)
       then map (fun pv => (fst kv :: fst pv, snd pv)) (leaves (snd kv))
       else [([fst kv], snd kv)])
    d.
Proof.
  simpl. induction d as [|[k v] d IH]; simpl; [reflexivity|now rewrite IH].
Qed.

Lemma add_nested_update (separator : string) (k : pykey) (sub result : pydict) :
  add_nested separator k sub result
  = dict_update result (map (rekey separator k) sub).
Proof.
  unfold add_nested, dict_update. revert result.
  induction sub as [|kv sub IH]; intro result; simpl; [reflexivity|apply IH].
Qed.

Lemma dict_update_app (d l1 l2 : pydict) :
  dict_update d (l1 ++ l2) = dict_update (dict_update d l1) l2.
Proof. apply fold_left_app. Qed.

(** [flatten_dict_config] builds its result by its assignments, in
    order, from the empty dictionary. *)
Lemma flatten_value_dict (d : pydict) (separator : string) :
  flatten_value (VDict d) separator = dict_update [] (assignments separator d).
Proof.
  simpl. generalize (@nil (pykey * pyval)) as result.
  induction d as [|[k v] d IH]; intro result; simpl; [reflexivity|].
  rewrite IH, dict_update_app. f_equal.
  destruct (is_mapping v); [apply add_nested_update|reflexivity].
Qed.

Lemma flatten_value_leaf (v : pyval) (separator : string) :
  is_mapping v = false -> flatten_value v separator = [].
Proof. destruct v; simpl; intro H; (reflexivity || discriminate). Qed.

(** *** Setting and updating *)

Lemma dict_set_in (d : pydict) (k : pykey) (v : pyval) (k' : pykey)
    (v' : pyval) :
  In (k', v') (dict_set d k v) ->
  In (k', v') d \/
  (v' = v /\ key_eqb k' k = true /\ (k' = k \/ In k' (map fst d))).
Proof.
  induction d as [|[k0 v0] d IH]; simpl.
  - intros [H|[]]. inversion H; subst. right. auto using key_eqb_refl.
  - destruct (key_eqb k0 k) eqn:E; simpl.
    + intros [H|H]; [|auto]. inversion H; subst. right. auto.
    + intros [H|H]; [auto|].
      destruct (IH H) as [Hin|(Hv & Hk & [Hk'|Hk'])]; auto 6.
Qed.

Lemma dict_set_key_in (d : pydict) (k : pykey) (v : pyval) (k' : pykey) :
  In k' (map fst (dict_set d k v)) -> In k' (map fst d) \/ k' = k.
Proof.
  intro H. apply in_map_iff in H. destruct H as ([k1 v1] & <- & Hin).
  simpl. destruct (dict_set_in _ _ _ _ _ Hin) as [H|(_ & _ & [H|H])]; auto.
  left. apply in_map_iff. now exists (k1, v1).
Qed.

Lemma dict_set_keeps_keys (d : pydict) (k : pykey) (v : pyval) (k' : pykey) :
  In k' (map fst d) -> In k' (map fst (dict_set d k v)).
Proof.
  induction d as [|[k0 v0] d IH]; simpl; [contradiction|].
  destruct (key_eqb k0 k); simpl; intros [H|H]; auto.
Qed.

(** After [d[k] = v] the dictionary holds [v] under a key equal to [k]:
    the one it held before, or [k] itself. *)
Lemma dict_set_holds (d : pydict) (k : pykey) (v : pyval) :
  exists k', In (k', v) (dict_set d k v) /\ key_eqb k' k = true /\
             (k' = k \/ In k' (map fst d)).
Proof.
  induction d as [|[k0 v0] d IH]; simpl.
  - exists k. auto using key_eqb_refl.
  - destruct (key_eqb k0 k) eqn:E.
    + exists k0. simpl. auto.
    + destruct IH as (k' & Hin & Hk & Hor). exists k'. simpl.
      destruct Hor; auto.
Qed.

Lemma dict_set_wf (d : pydict) (k : pykey) (v : pyval) :
  dict_wf d = true -> dict_wf (dict_set d k v) = true.
Proof.
  induction d as [|[k0 v0] d IH]; simpl; [reflexivity|].
  intro H. apply andb_true_iff in H. destruct H as [Hk Hd].
  destruct (key_eqb k0 k) eqn:E; simpl.
  - now rewrite Hk, Hd.
  - rewrite (IH Hd), andb_true_r. apply negb_true_iff in Hk.
    apply negb_true_iff. apply dict_mem_false.
    intros k' v' Hin.
    destruct (dict_set_in _ _ _ _ _ Hin) as [H|(_ & Hk' & [->|H])].
    + exact (proj1 (dict_mem_false d k0) Hk k' v' H).
    + now rewrite key_eqb_sym.
    + apply in_map_iff in H. destruct H as ([k1 v1] & <- & H).
      exact (proj1 (dict_mem_false d k0) Hk k1 v1 H).
Qed.

Lemma dict_update_wf (d l : pydict) :
  dict_wf d = true -> dict_wf (dict_update d l) = true.
Proof.
  unfold dict_update. revert d.
  induction l as [|[k v] l IH]; intros d H; simpl; [exact H|].
  apply IH, dict_set_wf, H.
Qed.

Lemma dict_update_keeps_keys (d l : pydict) (k : pykey) :
  In k (map fst d) -> In k (map fst (dict_update d l)).
Proof.
  unfold dict_update. revert d.
  induction l as [|[k0 v0] l IH]; intros d H; simpl; [exact H|].
  apply IH, dict_set_keeps_keys, H.
Qed.

(** A value of the updated dictionary was there before or is one of the
    values assigned. *)
Lemma dict_update_value_in (d l : pydict) (k : pykey) (v : pyval) :
  In (k, v) (dict_update d l) ->
  In (k, v) d \/ exists k0, In (k0, v) l.
Proof.
  unfold dict_update. revert d.
  induction l as [|[k0 v0] l IH]; intros d H; simpl in *; [auto|].
  destruct (IH _ H) as [Hin|[k1 Hin]].
  - destruct (dict_set_in _ _ _ _ _ Hin) as [Hd|(-> & _)]; [auto|].
    right. exists k0. auto.
  - right. exists k1. auto.
Qed.

(** *** Coherent keys *)

Lemma coherent_incl (ks ks' : list pykey) :
  incl ks' ks -> coherent ks -> coherent ks'.
Proof. intros Hi Hc k1 k2 H1 H2. apply Hc; auto. Qed.

Lemma dict_wf_coherent (d : pydict) :
  dict_wf d = true -> coherent (map fst d).
Proof.
  induction d as [|[k v] d IH]; simpl; intro H; [intros ? ? []|].
  apply andb_true_iff in H. destruct H as [Hk Hd].
  apply negb_true_iff in Hk.
  assert (Hno : forall k', In k' (map fst d) -> key_eqb k' k = false).
  { intros k' Hin. apply in_map_iff in Hin. destruct Hin as ([k1 v1] & <- & Hin).
    exact (proj1 (dict_mem_false d k) Hk k1 v1 Hin). }
  intros k1 k2 [<-|H1] [<-|H2] E.
  - reflexivity.
  - rewrite key_eqb_sym, (Hno _ H2) in E. discriminate.
  - rewrite (Hno _ H1) in E. discriminate.
  - now apply IH.
Qed.

Lemma coherent_after_set (d l : pydict) (k : pykey) (v : pyval) :
  coherent (map fst d ++ k :: map fst l) ->
  coherent (map fst (dict_set d k v) ++ map fst l).
Proof.
  apply coherent_incl.
  intros x Hx. apply in_app_or in Hx. destruct Hx as [Hx|Hx].
  - apply dict_set_key_in in Hx. destruct Hx as [Hx| ->];
      apply in_or_app; [now left|right; now left].
  - apply in_or_app. right. now right.
Qed.

(** With coherent keys, an item of the updated dictionary is an item it
    held or one of the items assigned, key and value. *)
Lemma dict_update_in (d l : pydict) (k : pykey) (v : pyval) :
  coherent (map fst d ++ map fst l) ->
  In (k, v) (dict_update d l) -> In (k, v) d \/ In (k, v) l.
Proof.
  unfold dict_update. revert d.
  induction l as [|[k0 v0] l IH]; intros d Hc H; simpl in *; [auto|].
  destruct (IH _ (coherent_after_set _ _ _ _ Hc) H) as [Hin|Hin]; [|auto].
  destruct (dict_set_in _ _ _ _ _ Hin) as [Hd|(-> & Hk & Hor)]; [auto|].
  right. left. f_equal. symmetry. apply Hc.
  - destruct Hor as [->|Hor]; apply in_or_app; [right; now left|now left].
  - apply in_or_app. right. now left.
  - exact Hk.
Qed.

(** With coherent keys, each key assigned is a key of the result. *)
Lemma dict_update_key_in (d l : pydict) (k : pykey) :
  coherent (map fst d ++ map fst l) ->
  In k (map fst l) -> In k (map fst (dict_update d l)).
Proof.
  revert d.
  induction l as [|[k0 v0] l IH]; intros d Hc H; simpl in *; [contradiction|].
  pose proof (coherent_after_set _ _ _ v0 Hc) as Hc'.
  change (dict_update d ((k0, v0) :: l))
    with (dict_update (dict_set d k0 v0) l).
  destruct H as [->|H]; [|now apply IH].
  apply dict_update_keeps_keys.
  destruct (dict_set_holds d k v0) as (k' & Hin & Hk & Hor).
  assert (k' = k) as <-.
  { apply Hc; [|apply in_or_app; right; now left|exact Hk].
    destruct Hor as [->|Hor]; apply in_or_app; [right; now left|now left]. }
  apply in_map_iff. now exists (k', v0).
Qed.

Lemma dict_update_key_from (d l : pydict) (k : pykey) :
  In k (map fst (dict_update d l)) -> In k (map fst d) \/ In k (map fst l).
Proof.
  unfold dict_update. revert d.
  induction l as [|[k0 v0] l IH]; intros d H; simpl in *; [auto|].
  destruct (IH _ H) as [Hin|Hin]; [|auto].
  apply dict_set_key_in in Hin. destruct Hin as [Hin| ->]; auto.
Qed.

(** *** The assignments of [flatten_dict_config] *)

Lemma assignments_in (separator : string) (d : pydict) (k : pykey) (x : pyval) :
  In (k, x) (assignments separator d) <->
  exists k0 v0,
    In (k0, v0) d /\
    (is_mapping v0 = true /\
     (exists sk, In (sk, x) (flatten_value v0 default_separator) /\
                 k = KStr (str_of_key k0 ++ separator ++ str_of_key sk))
     \/ is_mapping v0 = false /\ k = k0 /\ x = v0).
Proof.
  unfold assignments. rewrite in_flat_map. split.
  - intros ([k0 v0] & Hin & H). exists k0, v0. split; [exact Hin|].
    simpl in H. destruct (is_mapping v0).
    + left. split; [reflexivity|].
      apply in_map_iff in H. destruct H as ([sk sv] & E & Hs).
      unfold rekey in E. simpl in E. inversion E; subst. now exists sk.
    + right. destruct H as [H|[]]. inversion H. auto.
  - intros (k0 & v0 & Hin & H). exists (k0, v0). split; [exact Hin|].
    simpl. destruct H as [(Hm & sk & Hs & ->)|(Hm & -> & ->)]; rewrite Hm.
    + apply in_map_iff. now exists (sk, x).
    + now left.
Qed.

(** The keys assigned are strings, for the nested paths, or top-level
    keys of leaves. *)
Lemma assignments_keys (separator : string) (d : pydict) (k : pykey) :
  In k (map fst (assignments separator d)) ->
  (exists s, k = KStr s) \/
  (exists v, In (k, v) d /\ is_mapping v = false).
Proof.
  intro H. apply in_map_iff in H. destruct H as ([k1 x] & <- & H).
  apply assignments_in in H.
  destruct H as (k0 & v0 & Hin & [(_ & sk & _ & ->)|(Hm & -> & ->)]); simpl.
  - left. eauto.
  - right. eauto.
Qed.

Lemma assignments_coherent (separator : string) (d : pydict) :
  dict_wf d = true -> coherent (map fst (assignments separator d)).
Proof.
  intros Hwf k1 k2 H1 H2 E.
  destruct (assignments_keys _ _ _ H1) as [[s ->]|(v1 & Hv1 & _)].
  { symmetry. now apply key_eqb_str_l. }
  destruct (assignments_keys _ _ _ H2) as [[s ->]|(v2 & Hv2 & _)].
  { now apply key_eqb_str_r. }
  apply (dict_wf_coherent d Hwf); [| |exact E];
    apply in_map_iff; [now exists (k1, v1)|now exists (k2, v2)].
Qed.

(** *** Paths *)

Lemma leaves_nonempty (v : pyval) (p : list pykey) (x : pyval) :
  In (p, x) (leaves v) -> p <> [].
Proof.
  destruct v as [ | | | | | | d | ]; try (intros []).
  rewrite leaves_dict, in_flat_map.
  intros ([k0 v0] & _ & H). simpl in H. destruct (is_mapping v0).
  - apply in_map_iff in H. destruct H as ([p' x'] & E & _).
    inversion E. discriminate.
  - destruct H as [H|[]]. inversion H. discriminate.
Qed.

Lemma path_key_cons (separator : string) (k : pykey) (p : list pykey) :
  p <> [] ->
  path_key separator (k :: p) = KStr (str_of_key k ++ separator ++ dotted p).
Proof. destruct p; [congruence|reflexivity]. Qed.

Lemma str_of_path_key (p : list pykey) :
  p <> [] -> str_of_key (path_key default_separator p) = dotted p.
Proof.
  destruct p as [|k [|k' p]]; [congruence| |]; reflexivity.
Qed.

(** A path of two keys or more is stored under its dotted string. *)
Lemma path_key_dotted (p : list pykey) :
  2 <= length p -> path_key default_separator p = KStr (dotted p).
Proof.
  destruct p as [|k [|k' p]]; simpl; intro H; try lia. reflexivity.
Qed.

(** *** The three properties of the result *)

(** No value of the result is a mapping. *)
Lemma flatten_value_leaves_only (v : pyval) :
  forall separator k x,
    In (k, x) (flatten_value v separator) -> is_mapping x = false.
Proof.
  induction v as [v Hv|d IH] using pyval_nested_ind; intros separator k x H.
  - rewrite flatten_value_leaf in H by exact Hv. destruct H.
  - rewrite flatten_value_dict in H.
    apply dict_update_value_in in H. destruct H as [[]|[k1 H]].
    apply assignments_in in H.
    destruct H as (k0 & v0 & Hin & [(_ & sk & Hs & _)|(Hm & _ & ->)]);
      [|exact Hm].
    rewrite Forall_forall in IH.
    exact (IH (k0, v0) Hin default_separator sk x Hs).
Qed.

(** Each item of the result is a leaf under the key of its path. *)
Lemma flatten_value_sound (v : pyval) :
  deep_wf v = true ->
  forall separator k x,
    In (k, x) (flatten_value v separator) ->
    exists p, In (p, x) (leaves v) /\ k = path_key separator p.
Proof.
  induction v as [v Hv|d IH] using pyval_nested_ind;
    intros Hwf separator k x H.
  - rewrite flatten_value_leaf in H by exact Hv. destruct H.
  - rewrite deep_wf_dict in Hwf. apply andb_true_iff in Hwf.
    destruct Hwf as [Hwf Hdeep].
    rewrite forallb_forall in Hdeep. rewrite Forall_forall in IH.
    rewrite flatten_value_dict in H.
    apply dict_update_in in H;
      [|simpl; now apply assignments_coherent].
    destruct H as [[]|H].
    apply assignments_in in H.
    destruct H as (k0 & v0 & Hin & [(Hm & sk & Hs & ->)|(Hm & -> & ->)]).
    + destruct (IH (k0, v0) Hin (Hdeep _ Hin) default_separator sk x Hs)
        as (p & Hp & ->).
      exists (k0 :: p). split.
      * rewrite leaves_dict. apply in_flat_map. exists (k0, v0).
        split; [exact Hin|]. simpl. rewrite Hm.
        apply in_map_iff. now exists (p, x).
      * pose proof (leaves_nonempty _ _ _ Hp) as Hne.
        now rewrite path_key_cons, str_of_path_key.
    + exists [k0]. split; [|reflexivity].
      rewrite leaves_dict. apply in_flat_map. exists (k0, v0).
      split; [exact Hin|]. simpl. rewrite Hm. now left.
Qed.

(** Each leaf has the key of its path in the result. *)
Lemma flatten_value_complete (v : pyval) :
  deep_wf v = true ->
  forall separator p x,
    In (p, x) (leaves v) ->
    In (path_key separator p) (map fst (flatten_value v separator)).
Proof.
  induction v as [v Hv|d IH] using pyval_nested_ind;
    intros Hwf separator p x H.
  - destruct v; simpl in *; (contradiction || discriminate).
  - rewrite deep_wf_dict in Hwf. apply andb_true_iff in Hwf.
    destruct Hwf as [Hwf Hdeep].
    rewrite forallb_forall in Hdeep. rewrite Forall_forall in IH.
    rewrite flatten_value_dict.
    apply dict_update_key_in; [simpl; now apply assignments_coherent|].
    rewrite leaves_dict in H. apply in_flat_map in H.
    destruct H as ([k0 v0] & Hin & H). simpl in H.
    destruct (is_mapping v0) eqn:Hm.
    + apply in_map_iff in H. destruct H as ([p' x'] & E & Hp).
      simpl in E. inversion E; subst. clear E.
      pose proof (IH (k0, v0) Hin (Hdeep _ Hin) default_separator p' x Hp) as Hk.
      apply in_map_iff in Hk. destruct Hk as ([sk sv] & Ek & Hs).
      simpl in Ek. subst sk.
      pose proof (leaves_nonempty _ _ _ Hp) as Hne.
      apply in_map_iff.
      exists (KStr (str_of_key k0 ++ separator ++ dotted p'), sv).
      split; [cbn [fst]; symmetry; now apply path_key_cons|].
      apply assignments_in. exists k0, v0. split; [exact Hin|]. left.
      split; [exact Hm|]. exists (path_key default_separator p').
      split; [exact Hs|]. now rewrite str_of_path_key.
    + destruct H as [H|[]]. inversion H; subst.
      apply in_map_iff. exists (k0, x). split; [reflexivity|].
      apply assignments_in. exists k0, x. split; [exact Hin|]. right. auto.
Qed.

(** ** [flatten_dict_config] *)

(** C2: the mapping [{"a": {"b": 1, "c": {"d": 2}}}] flattens to
    [{"a.b": 1, "a.c.d": 2}].  For every nested mapping the result is a
    dictionary none of whose values is a mapping; when the input is a
    dictionary at every depth, the items of the result are leaves of the
    input, each under the key of its path, and every leaf has the key of
    its path in the result; that key is the dot-joined path, a path of one
    key being the key itself. *)
Theorem flatten_dict_config_dotted_leaves :
  flatten_dict_config nested_example default_separator
    = [(KStr "a.b", VInt 1); (KStr "a.c.d", VInt 2)] /\
  (forall d,
     let flat := flatten_dict_config d default_separator in
     dict_wf flat = true /\
     forall k v, In (k, v) flat -> is_mapping v = false) /\
  (forall d,
     deep_wf (VDict d) = true ->
     let flat := flatten_dict_config d default_separator in
     (forall k v,
        In (k, v) flat ->
        exists p, In (p, v) (leaves (VDict d)) /\
                  k = path_key default_separator p) /\
     (forall p v,
        In (p, v) (leaves (VDict d)) ->
        In (path_key default_separator p) (map fst flat))) /\
  (forall k, path_key default_separator [k] = k) /\
  (forall p, 2 <= length p -> path_key default_separator p = KStr (dotted p)).
Proof.
  split; [reflexivity|]. split; [|split; [|split]].
  - intros d flat. subst flat. unfold flatten_dict_config. split.
    + rewrite flatten_value_dict. now apply dict_update_wf.
    + intros k v. apply flatten_value_leaves_only.
  - intros d Hwf flat. subst flat. unfold flatten_dict_config. split.
    + intros k v. now apply flatten_value_sound.
    + intros p v. now apply flatten_value_complete.
  - reflexivity.
  - exact path_key_dotted.
Qed.

Lemma flatten_dict_config_dotted_leaves_witness :
  deep_wf (VDict nested_example) = true /\
  (forall k v,
     In (k, v) (flatten_dict_config nested_example default_separator) ->
     exists p, In (p, v) (leaves (VDict nested_example)) /\
               k = path_key default_separator p) /\
  (forall p v,
     In (p, v) (leaves (VDict nested_example)) ->
     In (path_key default_separator p)
        (map fst (flatten_dict_config nested_example default_separator))).
Proof.
  split; [reflexivity|].
  exact (proj1 (proj2 (proj2 flatten_dict_config_dotted_leaves))
           nested_example eq_refl).
Defined.

(** C10: keys go through [str] only where a nested path is joined.  A
    top-level key of a dictionary whose value is a leaf is a key of the
    result as it is, whatever its type; every key of the result is such a
    key or the string of a nested path; so the keys of the result need not
    all be strings: [{1: 2}] flattens to itself. *)
Theorem flatten_dict_config_keeps_top_level_keys :
  (forall d separator k v,
     dict_wf d = true ->
     In (k, v) d -> is_mapping v = false ->
     In k (map fst (flatten_dict_config d separator))) /\
  (forall d separator k,
     In k (map fst (flatten_dict_config d separator)) ->
     (exists v, In (k, v) d /\ is_mapping v = false) \/
     (exists k0 sub sk,
        In (k0, VDict sub) d /\
        In sk (map fst (flatten_dict_config sub default_separator)) /\
        k = KStr (str_of_key k0 ++ separator ++ str_of_key sk))) /\
  flatten_dict_config [(KInt 1, VInt 2)] default_separator = [(KInt 1, VInt 2)].
Proof.
  split; [|split; [|reflexivity]].
  - intros d separator k v Hwf Hin Hm.
    unfold flatten_dict_config. rewrite flatten_value_dict.
    apply dict_update_key_in; [simpl; now apply assignments_coherent|].
    apply in_map_iff. exists (k, v). split; [reflexivity|].
    apply assignments_in. exists k, v. split; [exact Hin|]. right. auto.
  - intros d separator k H.
    unfold flatten_dict_config in H. rewrite flatten_value_dict in H.
    apply dict_update_key_from in H. destruct H as [[]|H].
    apply in_map_iff in H. destruct H as ([k1 x] & <- & H).
    apply assignments_in in H.
    destruct H as (k0 & v0 & Hin & [(Hm & sk & Hs & ->)|(Hm & -> & ->)]).
    + right. destruct v0 as [ | | | | | | sub | ]; try discriminate.
      exists k0, sub, sk. split; [exact Hin|]. split; [|reflexivity].
      apply in_map_iff. now exists (sk, x).
    + left. now exists v0.
Qed.

Lemma flatten_dict_config_keeps_top_level_keys_witness :
  let d := [(KInt 1, VStr "one"); (KBool false, VNone);
            (KStr "a", VDict [(KInt 1, VInt 2)])] in
  dict_wf d = true /\
  In (KBool false, VNone) d /\
  is_mapping VNone = false /\
  In (KBool false) (map fst (flatten_dict_config d default_separator)).
Proof.
  intro d.
  assert (Hin : In (KBool false, VNone) d) by (right; left; reflexivity).
  split; [reflexivity|]. split; [exact Hin|]. split; [reflexivity|].
  exact (proj1 flatten_dict_config_keeps_top_level_keys d default_separator
           (KBool false) VNone eq_refl Hin eq_refl).
Defined.

(** A list is a leaf: a mapping inside a list is returned as it is. *)
Remark flatten_dict_config_list_leaf :
  flatten_dict_config
    [(KStr "a", VList [VDict [(KStr "b", VInt 1)]])] default_separator
  = [(KStr "a", VList [VDict [(KStr "b", VInt 1)]])].
Proof. reflexivity. Qed.

(** The separator argument joins the first step only: the recursive call
    of line 142 falls back on the default. *)
Remark flatten_dict_config_separator_first_step :
  flatten_dict_config nested_example "/"
  = [(KStr "a/b", VInt 1); (KStr "a/c.d", VInt 2)].
Proof. reflexivity. Qed.

(** A later assignment to a key already set replaces the value and keeps
    the place. *)
Remark flatten_dict_config_collision :
  flatten_dict_config
    [(KStr "a.b", VInt 1); (KStr "z", VInt 0);
     (KStr "a", VDict [(KStr "b", VInt 2)])] default_separator
  = [(KStr "a.b", VInt 2); (KStr "z", VInt 0)].
Proof. reflexivity. Qed.

(** ** Computations only append to the trace *)

Lemma appends_ret {A : Type} (a : A) : appends (ret a).
Proof. intro t. unfold ret. simpl. now rewrite app_nil_r. Qed.

Lemma appends_raise {A : Type} (e : exn) : appends (@raise A e).
Proof. intro t. unfold raise. simpl. now rewrite app_nil_r. Qed.

Lemma appends_lift {A : Type} (r : outcome A) : appends (lift r).
Proof. intro t. unfold lift. simpl. now rewrite app_nil_r. Qed.

Lemma appends_emit (e : event) : appends (emit e).
Proof. intro t. reflexivity. Qed.

Lemma appends_bind {A B : Type} (m : M A) (k : A -> M B) :
  appends m -> (forall a, appends (k a)) -> appends (bind m k).
Proof.
  intros Hm Hk t. unfold bind.
  rewrite (Hm t). destruct (m []) as [[e|a] t1]; simpl.
  - reflexivity.
  - rewrite (Hk a (t ++ t1)), (Hk a t1). simpl. now rewrite app_assoc.
Qed.

Lemma appends_try_except {A : Type} (m : M A) (h : exn -> M A) :
  appends m -> (forall e, appends (h e)) -> appends (try_except m h).
Proof.
  intros Hm Hh t. unfold try_except.
  rewrite (Hm t). destruct (m []) as [[e|a] t1]; simpl.
  - rewrite (Hh e (t ++ t1)), (Hh e t1). simpl. now rewrite app_assoc.
  - reflexivity.
Qed.

Lemma appends_call_wandb_init (env : Env) (a : InitArgs) :
  appends (call_wandb_init env a).
Proof. intro t. reflexivity. Qed.

Lemma appends_call_wandb_log (env : Env) (m : pydict) (s : Z) :
  appends (call_wandb_log env m s).
Proof. intro t. reflexivity. Qed.

Create HintDb appends.
#[local] Hint Resolve appends_ret appends_raise appends_lift appends_emit
  appends_call_wandb_init appends_call_wandb_log : appends.

Ltac appends_step :=
  first [ solve [auto with appends]
        | apply appends_bind; [|intro]
        | apply appends_try_except; [|intro] ].

Lemma appends_resume_policy (v : pyval) : appends (resume_policy v).
Proof.
  unfold resume_policy.
  repeat match goal with |- context [if ?b then _ else _] => destruct b end;
    auto with appends.
Qed.

Lemma appends_derive_name (run_dir : string) (root : pyval) :
  appends (derive_name run_dir root).
Proof.
  unfold derive_name.
  destruct (truthy root); [|auto with appends].
  destruct root; auto with appends.
  destruct (negb _); auto with appends.
Qed.

#[local] Hint Resolve appends_resume_policy appends_derive_name : appends.

Lemma appends_init_wandb env cfg run_dir config :
  appends (init_wandb env cfg run_dir config).
Proof.
  unfold init_wandb.
  repeat appends_step.
  - destruct config; auto with appends.
  - destruct (_ <? _)%nat; auto with appends.
  - match goal with a : init_result |- _ => destruct a end; auto with appends.
Qed.

#[local] Hint Resolve appends_init_wandb : appends.

Lemma appends_setup_logging env cfg output_dir run :
  appends (setup_logging env cfg output_dir run).
Proof.
  unfold setup_logging.
  repeat appends_step.
  destruct (is_main_process env); [|auto with appends].
  repeat appends_step.
  destruct run; [auto with appends|].
  destruct (truthy _); [|auto with appends].
  repeat appends_step.
Qed.

Lemma appends_log_metrics env steps metrics :
  appends (log_metrics env steps metrics).
Proof.
  unfold log_metrics.
  destruct (negb _); [auto with appends|].
  repeat appends_step.
Qed.

(** ** [init_wandb] *)

(** The resume policy has two accepted values. *)
Lemma resume_policy_accepts (v : pyval) (s : string) (t t' : trace) :
  resume_policy v t = (inr s, t') ->
  t' = t /\
  (v = VStr "always" /\ s = "allow" \/ v = VStr "never" /\ s = "never").
Proof.
  unfold resume_policy.
  destruct (eq_str v "always") eqn:Ea.
  - apply eq_str_true in Ea. unfold ret. intro H. inversion H. auto.
  - destruct (eq_str v "never") eqn:En.
    + apply eq_str_true in En. unfold ret. intro H. inversion H. auto.
    + destruct (eq_str v "if_not_interactive"); unfold raise; discriminate.
Qed.

Lemma resume_policy_rejects (v : pyval) (t : trace) :
  eq_str v "always" = false -> eq_str v "never" = false ->
  resume_policy v t =
  (inl (if eq_str v "if_not_interactive" then NotImplementedError
        else ValueError (UnknownResume v)), t).
Proof.
  intros Ea En. unfold resume_policy. rewrite Ea, En.
  destruct (eq_str v "if_not_interactive"); reflexivity.
Qed.

(** The policy step never touches the trace. *)
Lemma resume_policy_silent (v : pyval) (t : trace) :
  snd (resume_policy v t) = t.
Proof.
  unfold resume_policy.
  repeat match goal with |- context [if ?b then _ else _] => destruct b end;
    reflexivity.
Qed.

(** The derived name: the run directory, or what follows the root and its
    separator. *)
Lemma derive_name_ok (run_dir : string) (root : pyval) (n : string)
    (t t' : trace) :
  derive_name run_dir root t = (inr n, t') ->
  t' = t /\
  (truthy root = false /\ n = run_dir \/
   exists r, root = VStr r /\ truthy root = true /\
             run_dir = (r ++ "/" ++ n)%string).
Proof.
  unfold derive_name.
  destruct (truthy root) eqn:Ht.
  - destruct root; try (unfold raise; discriminate).
    destruct (startswith run_dir (s ++ "/")) eqn:Hp; simpl;
      [|unfold raise; discriminate].
    unfold ret. intro H. inversion H; subst. split; [reflexivity|].
    right. exists s. split; [reflexivity|]. split; [reflexivity|].
    apply startswith_split in Hp.
    rewrite str_length_app in Hp. simpl in Hp.
    etransitivity; [exact Hp|].
    generalize (str_drop (String.length s + 1) run_dir) as rest.
    clear. intro rest.
    induction s as [|c s IH]; simpl; [reflexivity|now rewrite IH].
  - unfold ret. intro H. inversion H. auto.
Qed.

Lemma derive_name_silent (run_dir : string) (root : pyval) (t : trace) :
  snd (derive_name run_dir root t) = t.
Proof.
  unfold derive_name.
  destruct (truthy root); [|reflexivity].
  destruct root; try reflexivity.
  destruct (negb _); reflexivity.
Qed.

(** A run directory outside a configured root is rejected. *)
Lemma derive_name_outside (run_dir r : string) (t : trace) :
  truthy (VStr r) = true ->
  startswith run_dir (r ++ "/") = false ->
  derive_name run_dir (VStr r) t
  = (inl (ValueError (NotUnderRoot run_dir r)), t).
Proof.
  intros Ht Hp. unfold derive_name. rewrite Ht, Hp. reflexivity.
Qed.

(** The configuration that [init_wandb] starts from. *)
Lemma init_wandb_no_config env cfg run_dir e t :
  cfg_dict cfg = inl e ->
  init_wandb env cfg run_dir None t = (inl e, t).
Proof. intro H. unfold init_wandb, bind, lift. now rewrite H. Qed.

Lemma init_wandb_default_config env cfg run_dir c t :
  cfg_dict cfg = inr c ->
  init_wandb env cfg run_dir None t = init_wandb env cfg run_dir (Some c) t.
Proof. intro H. unfold init_wandb, bind, lift, ret. now rewrite H. Qed.

(** When the policy or the name step raises, so does [init_wandb], with
    the trace as it was. *)
Lemma init_wandb_policy_raises env cfg run_dir c e t :
  resume_policy (wandb_resume (finetune cfg)) t = (inl e, t) ->
  init_wandb env cfg run_dir (Some c) t = (inl e, t).
Proof. intro H. unfold init_wandb, bind, ret. now rewrite H. Qed.

Lemma init_wandb_name_raises env cfg run_dir c s e t :
  resume_policy (wandb_resume (finetune cfg)) t = (inr s, t) ->
  derive_name run_dir (wandb_workspace_root (finetune cfg)) t = (inl e, t) ->
  init_wandb env cfg run_dir (Some c) t = (inl e, t).
Proof. intros H1 H2. unfold init_wandb, bind, ret. now rewrite H1, H2. Qed.

(** Whatever the configuration argument, a failure of [init_wandb] on
    [Some c] for every [c] is a failure on [None] too. *)
Lemma init_wandb_fails_any_config env cfg run_dir config t :
  (forall c, exists e, init_wandb env cfg run_dir (Some c) t = (inl e, t)) ->
  exists e, init_wandb env cfg run_dir config t = (inl e, t).
Proof.
  intro H. destruct config as [c|]; [apply H|].
  destruct (cfg_dict cfg) as [e|c] eqn:Hc.
  - exists e. now apply init_wandb_no_config.
  - rewrite (init_wandb_default_config _ _ _ c) by exact Hc. apply H.
Qed.

Lemma init_wandb_calls env cfg run_dir c t :
  init_calls (snd (init_wandb env cfg run_dir (Some c) t)) = init_calls t \/
  exists resume wandb_name,
    resume_policy (wandb_resume (finetune cfg)) t = (inr resume, t) /\
    derive_name run_dir (wandb_workspace_root (finetune cfg)) t
      = (inr wandb_name, t) /\
    init_calls (snd (init_wandb env cfg run_dir (Some c) t))
      = init_calls t ++ [init_args env cfg c resume wandb_name].
Proof.
  unfold init_wandb, bind, ret.
  destruct (resume_policy _ t) as [[e|resume] t1] eqn:Hr.
  { left. pose proof (resume_policy_silent (wandb_resume (finetune cfg)) t) as Hs.
    rewrite Hr in Hs. simpl in *. now subst. }
  apply resume_policy_accepts in Hr as Hr'. destruct Hr' as [-> _].
  destruct (derive_name _ _ t) as [[e|wandb_name] t2] eqn:Hn.
  { left. pose proof (derive_name_silent run_dir (wandb_workspace_root (finetune cfg)) t) as Hs.
    rewrite Hn in Hs. simpl in *. now subst. }
  apply derive_name_ok in Hn as Hn'. destruct Hn' as [-> _].
  right. exists resume, wandb_name. repeat split.
  unfold emit, call_wandb_init, raise. fold (init_args env cfg c resume wandb_name).
  destruct (128 <? String.length wandb_name)%nat;
    destruct (wandb_init env _) as [e|[r|]]; simpl;
    unfold init_calls; rewrite ?flat_map_app; simpl;
    rewrite ?app_nil_r; reflexivity.
Qed.

(** C1, as the specification states it, fails: the identifier is derived
    from the whole run name before any truncation and is passed on as it
    is.  A run directory [/runs/xxx...x] with 129 [x] under the root
    [/runs] gives a display name of 128 characters and an identifier of
    129. *)
Lemma init_wandb_id_over_limit :
  ~ (forall a,
       In a (init_calls
               (snd (run_M (init_wandb (sample_env true client_up)
                              (sample_cfg (VStr "always") (VStr "/runs"))
                              ("/runs/" ++ str_repeat "x" 129) None)))) ->
       within_limit a).
Proof.
  intro H.
  set (calls := init_calls _) in H.
  assert (E : exists a s,
             In a calls /\ wi_id a = VStr s /\ String.length s = 129).
  { vm_compute. eexists. eexists.
    split; [left; reflexivity|]. split; reflexivity. }
  destruct E as (a & s & Hin & Hid & Hlen).
  destruct (H a Hin) as [_ Hl]. specialize (Hl s Hid). lia.
Qed.

(** C1, amended: in every call of the tracking client made by
    [init_wandb], the display name is the derived run name cut to its
    first 128 characters (so exactly 128 when the name is longer), while
    the identifier is not cut: it is the configured [wandb_id] when that
    is non-empty, and otherwise the whole derived name with each path
    separator replaced, of the same length as the name. *)
Theorem init_wandb_truncates_name_only :
  forall env cfg run_dir config a,
    In a (init_calls (snd (run_M (init_wandb env cfg run_dir config)))) ->
    exists wandb_name,
      fst (run_M (derive_name run_dir (wandb_workspace_root (finetune cfg))))
        = inr wandb_name /\
      wi_name a = str_take 128 wandb_name /\
      String.length (wi_name a) = Nat.min 128 (String.length wandb_name) /\
      (truthy (wandb_id (finetune cfg)) = true ->
       wi_id a = wandb_id (finetune cfg)) /\
      (truthy (wandb_id (finetune cfg)) = false ->
       wi_id a = VStr (str_replace_char "/" "_" wandb_name) /\
       String.length (str_replace_char "/" "_" wandb_name)
         = String.length wandb_name).
Proof.
  intros env cfg run_dir config a Hin. unfold run_M in *.
  assert (Hc : exists c,
             In a (init_calls (snd (init_wandb env cfg run_dir (Some c) [])))).
  { destruct config as [c|]; [now exists c|].
    destruct (cfg_dict cfg) as [e|c] eqn:Hd.
    - rewrite (init_wandb_no_config _ _ _ e) in Hin by exact Hd. destruct Hin.
    - rewrite (init_wandb_default_config _ _ _ c) in Hin by exact Hd.
      now exists c. }
  clear Hin. destruct Hc as [c Hin].
  destruct (init_wandb_calls env cfg run_dir c []) as [E|(resume & n & _ & Hn & E)];
    rewrite E in Hin; simpl in Hin; [contradiction|].
  destruct Hin as [<-|[]].
  exists n. rewrite Hn. simpl.
  split; [reflexivity|]. split; [reflexivity|].
  split; [apply str_take_length|].
  unfold derive_id.
  split; intros ->; simpl; [reflexivity|].
  split; [reflexivity|apply str_replace_char_length].
Qed.

Lemma init_wandb_truncates_name_only_witness :
  let a := init_args (sample_env true client_up)
             (sample_cfg (VStr "always") (VStr "/runs")) []
             "allow" (str_repeat "x" 129) in
  In a (init_calls
          (snd (run_M (init_wandb (sample_env true client_up)
                         (sample_cfg (VStr "always") (VStr "/runs"))
                         ("/runs/" ++ str_repeat "x" 129) (Some []))))) /\
  exists wandb_name,
    fst (run_M (derive_name ("/runs/" ++ str_repeat "x" 129) (VStr "/runs")))
      = inr wandb_name /\
    wi_name a = str_take 128 wandb_name /\
    String.length (wi_name a) = Nat.min 128 (String.length wandb_name) /\
    (truthy VNone = true -> wi_id a = VNone) /\
    (truthy VNone = false ->
     wi_id a = VStr (str_replace_char "/" "_" wandb_name) /\
     String.length (str_replace_char "/" "_" wandb_name)
       = String.length wandb_name).
Proof.
  intro a.
  assert (Hin : In a (init_calls
          (snd (run_M (init_wandb (sample_env true client_up)
                         (sample_cfg (VStr "always") (VStr "/runs"))
                         ("/runs/" ++ str_repeat "x" 129) (Some []))))))
    by (vm_compute; left; reflexivity).
  split; [exact Hin|].
  exact (init_wandb_truncates_name_only _ _ _ _ a Hin).
Defined.

(** C3: with a non-empty workspace root configured, a run directory whose
    string form does not start with the root and a path separator makes
    [init_wandb] raise with the trace untouched, so before the tracking
    client is called; when the configuration is given and the resume
    policy is accepted the exception is the [ValueError] of line 50. *)
Theorem init_wandb_outside_root_fails :
  forall env cfg run_dir config r t,
    wandb_workspace_root (finetune cfg) = VStr r ->
    truthy (VStr r) = true ->
    startswith run_dir (r ++ "/") = false ->
    exists e,
      init_wandb env cfg run_dir config t = (inl e, t) /\
      (config <> None ->
       eq_str (wandb_resume (finetune cfg)) "always"
         || eq_str (wandb_resume (finetune cfg)) "never" = true ->
       e = ValueError (NotUnderRoot run_dir r)).
Proof.
  intros env cfg run_dir config r t Hroot Ht Hp.
  assert (Hc : forall c, exists e,
             init_wandb env cfg run_dir (Some c) t = (inl e, t) /\
             (eq_str (wandb_resume (finetune cfg)) "always"
                || eq_str (wandb_resume (finetune cfg)) "never" = true ->
              e = ValueError (NotUnderRoot run_dir r))).
  { intro c.
    destruct (resume_policy (wandb_resume (finetune cfg)) t) as [[e|s] t1] eqn:Hr.
    - pose proof (resume_policy_silent (wandb_resume (finetune cfg)) t) as Hs.
      rewrite Hr in Hs. simpl in Hs. subst t1.
      exists e. split; [now apply init_wandb_policy_raises|].
      intro Hv. exfalso. unfold resume_policy in Hr.
      apply orb_true_iff in Hv. destruct Hv as [Hv|Hv]; rewrite Hv in Hr.
      + discriminate.
      + destruct (eq_str _ "always"); discriminate.
    - apply resume_policy_accepts in Hr as Hr'. destruct Hr' as [-> _].
      exists (ValueError (NotUnderRoot run_dir r)). split; [|reflexivity].
      apply (init_wandb_name_raises _ _ _ _ s); [exact Hr|].
      rewrite Hroot. now apply derive_name_outside. }
  destruct config as [c|].
  - destruct (Hc c) as (e & He & Hv). exists e. split; [exact He|]. auto.
  - destruct (init_wandb_fails_any_config env cfg run_dir None t) as [e He].
    + intro c. destruct (Hc c) as (e & He & _). now exists e.
    + exists e. split; [exact He|]. intro Hn. now contradict Hn.
Qed.

Lemma init_wandb_outside_root_fails_witness :
  wandb_workspace_root
    (finetune (sample_cfg (VStr "always") (VStr "/runs"))) = VStr "/runs" /\
  truthy (VStr "/runs") = true /\
  startswith "/other/x" ("/runs" ++ "/") = false /\
  exists e,
    init_wandb (sample_env true client_up)
      (sample_cfg (VStr "always") (VStr "/runs")) "/other/x" (Some []) []
      = (inl e, []) /\
    (Some (@nil (pykey * pyval)) <> None ->
     eq_str (VStr "always") "always" || eq_str (VStr "always") "never" = true ->
     e = ValueError (NotUnderRoot "/other/x" "/runs")).
Proof.
  split; [reflexivity|]. split; [reflexivity|]. split; [reflexivity|].
  apply (init_wandb_outside_root_fails (sample_env true client_up)
           (sample_cfg (VStr "always") (VStr "/runs")) "/other/x" (Some [])
           "/runs" []); reflexivity.
Defined.

(** C4: a resume policy other than ["always"] and ["never"] makes
    [init_wandb] raise with the trace untouched: ["if_not_interactive"]
    raises [NotImplementedError], any other value the [ValueError] of
    line 44; ["always"] and ["never"] pass the policy step, as ["allow"]
    and ["never"]. *)
Theorem init_wandb_resume_policy :
  (forall env cfg run_dir config t,
     eq_str (wandb_resume (finetune cfg)) "always" = false ->
     eq_str (wandb_resume (finetune cfg)) "never" = false ->
     (exists e, init_wandb env cfg run_dir config t = (inl e, t)) /\
     forall c,
       init_wandb env cfg run_dir (Some c) t =
       (inl (if eq_str (wandb_resume (finetune cfg)) "if_not_interactive"
             then NotImplementedError
             else ValueError (UnknownResume (wandb_resume (finetune cfg)))),
        t)) /\
  (forall env cfg run_dir c t,
     wandb_resume (finetune cfg) = VStr "if_not_interactive" ->
     init_wandb env cfg run_dir (Some c) t = (inl NotImplementedError, t)) /\
  (forall t, resume_policy (VStr "always") t = (inr "allow", t)) /\
  (forall t, resume_policy (VStr "never") t = (inr "never", t)).
Proof.
  assert (H : forall env cfg run_dir c t,
     eq_str (wandb_resume (finetune cfg)) "always" = false ->
     eq_str (wandb_resume (finetune cfg)) "never" = false ->
     init_wandb env cfg run_dir (Some c) t =
       (inl (if eq_str (wandb_resume (finetune cfg)) "if_not_interactive"
             then NotImplementedError
             else ValueError (UnknownResume (wandb_resume (finetune cfg)))),
        t)).
  { intros. apply init_wandb_policy_raises. now apply resume_policy_rejects. }
  split; [|split; [|split]].
  - intros env cfg run_dir config t Ha Hn. split.
    + apply init_wandb_fails_any_config. intro c. eexists. now apply H.
    + intro c. now apply H.
  - intros env cfg run_dir c t Hv.
    rewrite (H env cfg run_dir c t); rewrite Hv; reflexivity.
  - reflexivity.
  - reflexivity.
Qed.

Lemma init_wandb_resume_policy_witness :
  eq_str (VStr "sometimes") "always" = false /\
  eq_str (VStr "sometimes") "never" = false /\
  init_wandb (sample_env true client_up)
    (sample_cfg (VStr "sometimes") VNone) "/runs/a" (Some []) []
    = (inl (ValueError (UnknownResume (VStr "sometimes"))), []) /\
  init_wandb (sample_env true client_up)
    (sample_cfg (VStr "if_not_interactive") VNone) "/runs/a" (Some []) []
    = (inl NotImplementedError, []).
Proof.
  split; [reflexivity|]. split; [reflexivity|]. split.
  - exact (proj2 (proj1 init_wandb_resume_policy (sample_env true client_up)
             (sample_cfg (VStr "sometimes") VNone) "/runs/a" (Some []) []
             eq_refl eq_refl) []).
  - exact (proj1 (proj2 init_wandb_resume_policy) (sample_env true client_up)
             (sample_cfg (VStr "if_not_interactive") VNone) "/runs/a" [] []
             eq_refl).
Defined.

(** ** [setup_logging] *)

(** [init_wandb] once the policy and the name are accepted: the events
    and the answer of the tracking client. *)
Lemma init_wandb_run env cfg run_dir c resume n t :
  resume_policy (wandb_resume (finetune cfg)) t = (inr resume, t) ->
  derive_name run_dir (wandb_workspace_root (finetune cfg)) t = (inr n, t) ->
  let a := init_args env cfg c resume n in
  init_wandb env cfg run_dir (Some c) t =
  (match wandb_init env a with
   | inl e => inl e
   | inr (InitRun r) => inr r
   | inr InitOther => inl (ValueError InitFailed)
   end,
   t ++ (if (128 <? String.length n)%nat
         then [ELog LContext WARNING (MsgTruncating n)] else [])
     ++ [ELog LRoot INFO
           (MsgInitializing (str_take 128 n)
              (derive_id (wandb_id (finetune cfg)) n) resume);
         EWandbInit a (wandb_init env a)]).
Proof.
  intros Hr Hn a. unfold init_wandb, bind, ret. rewrite Hr, Hn.
  unfold emit, call_wandb_init, raise. subst a. unfold init_args.
  destruct (128 <? String.length n)%nat;
    destruct (wandb_init env _) as [e|[r|]]; simpl;
    rewrite <- ?app_assoc; reflexivity.
Qed.

(** The runs the client started in [init_wandb] are the run returned, and
    [init_wandb] writes no file. *)
Lemma init_wandb_started env cfg run_dir c :
  let res := run_M (init_wandb env cfg run_dir (Some c)) in
  started_runs (snd res)
    = match fst res with inr r => [r] | inl _ => [] end /\
  json_dumps (snd res) = [] /\
  ((forall a, exists e, wandb_init env a = inl e) -> exists e, fst res = inl e).
Proof.
  unfold run_M.
  destruct (resume_policy (wandb_resume (finetune cfg)) []) as [[e|resume] t1] eqn:Hr.
  { pose proof (resume_policy_silent (wandb_resume (finetune cfg)) []) as Hs.
    rewrite Hr in Hs. simpl in Hs. subst t1.
    rewrite (init_wandb_policy_raises _ _ _ _ e) by exact Hr. simpl. eauto. }
  apply resume_policy_accepts in Hr as Hr'. destruct Hr' as [-> _].
  destruct (derive_name run_dir (wandb_workspace_root (finetune cfg)) [])
    as [[e|n] t2] eqn:Hn.
  { pose proof (derive_name_silent run_dir (wandb_workspace_root (finetune cfg)) []) as Hs.
    rewrite Hn in Hs. simpl in Hs. subst t2.
    rewrite (init_wandb_name_raises _ _ _ _ resume e) by assumption.
    simpl. eauto. }
  apply derive_name_ok in Hn as Hn'. destruct Hn' as [-> _].
  rewrite (init_wandb_run _ _ _ _ resume n) by assumption.
  set (a := init_args env cfg c resume n).
  simpl. repeat split.
  - destruct (128 <? String.length n)%nat;
      destruct (wandb_init env a) as [e|[r|]]; reflexivity.
  - destruct (128 <? String.length n)%nat; reflexivity.
  - intro H. destruct (H a) as [e He]. rewrite He. now exists e.
Qed.

(** [setup_logging] on the coordinator: it returns, and these are its
    events. *)
Lemma setup_logging_main env cfg output_dir run t :
  is_main_process env = true ->
  setup_logging env cfg output_dir run t =
  (inr tt,
   t ++ [EMkdir {| base := output_dir; below := "log" |};
         ELogFile
           {| base := output_dir;
              below :=
                "log/info_" ++ str_of_int (process_index env) ++ ".log" |};
         EBasicConfig; ESetLevel INFO]
     ++ snd (start_run env cfg output_dir run)
     ++ [EJsonDump (info_path output_dir)
           (wandb_info (fst (start_run env cfg output_dir run)));
         EVerbosityError "datasets"; EVerbosityError "transformers"]).
Proof.
  intro Hmain. unfold setup_logging, start_run, info_path.
  rewrite Hmain.
  destruct run as [r|].
  - unfold bind, emit, ret. simpl. rewrite <- !app_assoc. reflexivity.
  - destruct (truthy (use_wandb (finetune cfg))).
    + unfold try_except, bind, emit, ret.
      rewrite appends_init_wandb. unfold run_M.
      destruct (init_wandb env cfg output_dir
                  (Some (coordinator_config env cfg)) []) as [[e|r] evs];
        simpl; rewrite <- !app_assoc; reflexivity.
    + unfold bind, emit, ret. simpl. rewrite <- !app_assoc. reflexivity.
Qed.

Lemma json_dumps_app (t1 t2 : trace) :
  json_dumps (t1 ++ t2) = json_dumps t1 ++ json_dumps t2.
Proof. apply flat_map_app. Qed.

Lemma started_runs_app (t1 t2 : trace) :
  started_runs (t1 ++ t2) = started_runs t1 ++ started_runs t2.
Proof. apply flat_map_app. Qed.

(** C6: on the coordinator process with tracking enabled and no run passed
    in, if the tracking client raises in [init], [setup_logging] returns
    normally after logging a warning, no run has been started, and the one
    file written is [wandb_info.json] below the output directory, holding
    the empty dict; when a run is active, passed in or just started, the
    file holds exactly the keys [name], [entity], [project] and [id] of
    that run, in that order. *)
Theorem setup_logging_survives_init_failure :
  forall env cfg output_dir t,
    is_main_process env = true ->
    (truthy (use_wandb (finetune cfg)) = true ->
     (forall a, exists e, wandb_init env a = inl e) ->
     exists evs e,
       setup_logging env cfg output_dir None t = (inr tt, t ++ evs) /\
       In (ELog LContext WARNING (MsgInitFailed e)) evs /\
       started_runs evs = [] /\
       json_dumps evs = [(info_path output_dir, [])]) /\
    (forall r,
       exists evs,
         setup_logging env cfg output_dir (Some r) t = (inr tt, t ++ evs) /\
         json_dumps evs =
           [(info_path output_dir,
             [("name", str_take 128 (run_name r));
              ("entity", run_entity r);
              ("project", run_project_name r);
              ("id", run_id r)])]) /\
    (forall r,
       truthy (use_wandb (finetune cfg)) = true ->
       fst (run_M (init_wandb env cfg output_dir
                     (Some (coordinator_config env cfg)))) = inr r ->
       exists evs,
         setup_logging env cfg output_dir None t = (inr tt, t ++ evs) /\
         started_runs evs = [r] /\
         json_dumps evs =
           [(info_path output_dir,
             [("name", str_take 128 (run_name r));
              ("entity", run_entity r);
              ("project", run_project_name r);
              ("id", run_id r)])]).
Proof.
  intros env cfg output_dir t Hmain.
  split; [|split].
  - intros Huse Hdown.
    destruct (init_wandb_started env cfg output_dir (coordinator_config env cfg))
      as (Hs & Hj & Hfail).
    destruct (Hfail Hdown) as [e He].
    eexists. exists e.
    split; [apply setup_logging_main; exact Hmain|].
    unfold start_run. rewrite Huse.
    destruct (run_M _) as [[e'|r] evs]; simpl in *; [|discriminate].
    inversion He; subst e'.
    split.
    + do 4 right. apply in_or_app. left. apply in_or_app. right. now left.
    + rewrite !started_runs_app, !json_dumps_app, Hs, Hj. simpl. auto.
  - intro r. eexists.
    split; [apply setup_logging_main; exact Hmain|]. reflexivity.
  - intros r Huse Hr. eexists.
    split; [apply setup_logging_main; exact Hmain|].
    destruct (init_wandb_started env cfg output_dir (coordinator_config env cfg))
      as (Hs & Hj & _).
    unfold start_run. rewrite Huse.
    destruct (run_M _) as [[e|r'] evs]; simpl in *; [discriminate|].
    inversion Hr; subst r'.
    rewrite !started_runs_app, !json_dumps_app, Hs, Hj. simpl. auto.
Qed.

Lemma setup_logging_survives_init_failure_witness :
  let env := sample_env true client_down in
  let cfg := sample_cfg (VStr "always") (VStr "/runs") in
  is_main_process env = true /\
  truthy (use_wandb (finetune cfg)) = true /\
  (forall a, exists e, wandb_init env a = inl e) /\
  exists evs e,
    setup_logging env cfg "/runs/exp" None [] = (inr tt, [] ++ evs) /\
    In (ELog LContext WARNING (MsgInitFailed e)) evs /\
    started_runs evs = [] /\
    json_dumps evs = [(info_path "/runs/exp", [])].
Proof.
  intros env cfg.
  assert (Hdown : forall a, exists e, wandb_init env a = inl e)
    by (intro a; eexists; reflexivity).
  split; [reflexivity|]. split; [reflexivity|]. split; [exact Hdown|].
  exact (proj1 (setup_logging_survives_init_failure env cfg "/runs/exp" []
                  eq_refl) eq_refl Hdown).
Defined.

(** ** [log_metrics] *)

(** The format on some values: ints and bools go through [float], a tie
    rounds to even, the sign of a negative zero is kept. *)
Example format_3f_values :
  map format_3f
      [VInt 5; VInt (-12); VBool true; VFloat 0.0625%float;
       VFloat 2.5%float; VFloat (-0)%float; VFloat infinity]
  = [inr "5.000"; inr "-12.000"; inr "1.000"; inr "0.062";
     inr "2.500"; inr "-0.000"; inr "inf"].
Proof. reflexivity. Qed.

Example format_3f_rejects :
  map supports_3f [VStr "1.0"; VNone; VList []; VDict []; VInt (2 ^ 1024)]
  = [false; false; false; false; false].
Proof. reflexivity. Qed.


(** On a dictionary, the comprehension of line 126 is a filter. *)
Lemma numeric_items_from (metrics acc : pydict) :
  dict_wf metrics = true ->
  (forall k v, In (k, v) metrics -> dict_mem acc k = false) ->
  fold_left
    (fun r kv =>
       if is_int_or_float (snd kv) then dict_set r (fst kv) (snd kv) else r)
    metrics acc
  = acc ++ numeric_entries metrics.
Proof.
  revert acc.
  induction metrics as [|[k v] rest IH]; intros acc Hwf Hfresh; simpl.
  - now rewrite app_nil_r.
  - simpl in Hwf. apply andb_true_iff in Hwf. destruct Hwf as [Hk Hrest].
    apply negb_true_iff in Hk.
    destruct (is_int_or_float v) eqn:Hv.
    + rewrite dict_set_fresh by (apply (Hfresh k v); now left).
      rewrite IH; [now rewrite <- app_assoc|exact Hrest|].
      intros k' v' Hin. rewrite dict_mem_app.
      rewrite (Hfresh k' v') by now right. simpl.
      rewrite key_eqb_sym, orb_false_r.
      exact (proj1 (dict_mem_false rest k) Hk k' v' Hin).
    + apply IH; [exact Hrest|].
      intros k' v' Hin. apply (Hfresh k' v'). now right.
Qed.

Lemma numeric_items_filter (metrics : pydict) :
  dict_wf metrics = true -> numeric_items metrics = numeric_entries metrics.
Proof.
  intro Hwf. unfold numeric_items.
  now rewrite numeric_items_from by (auto; intros; reflexivity).
Qed.

(** The summary of line 123 raises at the first value that rejects the
    format. *)
Lemma pretty_items_raises (items acc : pydict) :
  forallb (fun kv => supports_3f (snd kv)) items = false ->
  exists k v e,
    In (k, v) items /\ format_3f v = inl e /\ pretty_items items acc = inl e.
Proof.
  revert acc. induction items as [|[k v] rest IH]; intros acc H; simpl in *.
  - discriminate.
  - unfold supports_3f in H at 1.
    destruct (format_3f v) as [e|s] eqn:Hf.
    + exists k, v, e. auto.
    + simpl in H.
      destruct (IH (dict_set acc k (VStr s)) H) as (k' & v' & e & Hin & Hf' & Hp).
      exists k', v', e. auto.
Qed.


(** [log_metrics] on the coordinator, by the outcome of the summary. *)
Lemma log_metrics_main env steps metrics t :
  is_main_process env = true ->
  log_metrics env steps metrics t =
  match pretty_items metrics [] with
  | inl e => (inl e, t)
  | inr pretty =>
      let answer := wandb_log env (numeric_items metrics) steps in
      (inr tt,
       t ++ [ELog LArgument INFO (MsgCompleted steps pretty);
             EWandbLog (numeric_items metrics) steps answer]
         ++ match answer with
            | inl e => [ELog LArgument ERROR (MsgLogFailed e)]
            | inr _ => []
            end)
  end.
Proof.
  intro Hmain. unfold log_metrics. rewrite Hmain. simpl.
  unfold bind, lift, try_except, emit, call_wandb_log.
  destruct (pretty_items metrics []) as [e|pretty]; [reflexivity|]. simpl.
  destruct (wandb_log env (numeric_items metrics) steps) as [e|[]]; simpl;
    now rewrite <- ?app_assoc.
Qed.

(** C5: off the coordinator process [log_metrics] returns at once, for
    every step counter and every metrics mapping: the trace is the one it
    was given, so no logger and no tracking client was called. *)
Theorem log_metrics_noop_off_coordinator :
  forall env completed_steps metrics t,
    is_main_process env = false ->
    log_metrics env completed_steps metrics t = (inr tt, t).
Proof.
  intros env steps metrics t H. unfold log_metrics. now rewrite H.
Qed.

Lemma log_metrics_noop_off_coordinator_witness :
  is_main_process (sample_env false client_up) = false /\
  log_metrics (sample_env false client_up) 7
    [(KStr "loss", VStr "not a number")] []
  = (inr tt, []).
Proof.
  split; [reflexivity|].
  apply (log_metrics_noop_off_coordinator (sample_env false client_up) 7
           [(KStr "loss", VStr "not a number")] []).
  reflexivity.
Defined.

(** C7, as the specification states it, fails: the summary of line 123
    is built before the [try] block, and a value that is not a number
    rejects its format.  On the coordinator, with the metrics
    [{"loss": 0.5, "split": "train"}], the numeric entries are
    [{"loss": 0.5}], yet [log_metrics] raises the [ValueError] of the
    string to its caller and forwards nothing. *)
Lemma log_metrics_string_value_blocks_forwarding :
  is_main_process (sample_env true client_up) = true /\
  dict_wf mixed_metrics = true /\
  numeric_entries mixed_metrics = [(KStr "loss", VFloat 0.5%float)] /\
  run_M (log_metrics (sample_env true client_up) 3 mixed_metrics)
    = (inl (ValueError (BadFormat (VStr "train"))), []) /\
  forwarded (snd (run_M (log_metrics (sample_env true client_up) 3
                           mixed_metrics)))
    <> [(numeric_entries mixed_metrics, 3%Z)].
Proof.
  split; [reflexivity|]. split; [reflexivity|]. split; [reflexivity|].
  split; [reflexivity|]. discriminate.
Qed.

(** C7, amended: on the coordinator process, when every value of the
    metrics mapping supports the [.3f] format, [log_metrics] logs the
    summary and forwards to the tracking run exactly the entries of the
    mapping with a numeric value, under the step counter, and it returns
    normally whatever the tracking client answers, a failure of the
    client being logged as an error.  Whatever the values, nothing else
    is ever forwarded, and an exception that reaches the caller is one
    of the summary, never one of the forwarding. *)
Theorem log_metrics_forwards_numeric :
  forall env completed_steps metrics t,
    is_main_process env = true ->
    dict_wf metrics = true ->
    let answer := wandb_log env (numeric_entries metrics) completed_steps in
    (forall pretty,
       pretty_items metrics [] = inr pretty ->
       log_metrics env completed_steps metrics t =
       (inr tt,
        t ++ [ELog LArgument INFO (MsgCompleted completed_steps pretty);
              EWandbLog (numeric_entries metrics) completed_steps answer]
          ++ match answer with
             | inl e => [ELog LArgument ERROR (MsgLogFailed e)]
             | inr _ => []
             end)) /\
    (forall e t',
       log_metrics env completed_steps metrics t = (inl e, t') ->
       pretty_items metrics [] = inl e) /\
    (forall m s,
       In (m, s)
          (forwarded (snd (run_M (log_metrics env completed_steps metrics)))) ->
       m = numeric_entries metrics /\ s = completed_steps).
Proof.
  intros env steps metrics t Hmain Hwf answer. subst answer.
  rewrite <- (numeric_items_filter metrics Hwf).
  split; [|split].
  - intros pretty Hp. rewrite log_metrics_main by exact Hmain.
    now rewrite Hp.
  - intros e t'. rewrite log_metrics_main by exact Hmain.
    destruct (pretty_items metrics []); [congruence|discriminate].
  - intros m s. unfold run_M. rewrite log_metrics_main by exact Hmain.
    destruct (pretty_items metrics []) as [e|pretty]; simpl; [contradiction|].
    destruct (wandb_log env _ steps); simpl; intros [H|[]]; now inversion H.
Qed.

Lemma log_metrics_forwards_numeric_witness :
  let env := sample_env true client_up in
  let metrics := [(KStr "loss", VFloat 0.5%float);
                  (KStr "device", VOther true (Some "0.000"));
                  (KStr "done", VBool true)] in
  is_main_process env = true /\
  dict_wf metrics = true /\
  log_metrics env 3 metrics [] =
  (inr tt,
   [ELog LArgument INFO
      (MsgCompleted 3 [(KStr "loss", VStr "0.500");
                       (KStr "device", VStr "0.000");
                       (KStr "done", VStr "1.000")]);
    EWandbLog [(KStr "loss", VFloat 0.5%float); (KStr "done", VBool true)] 3
              (inr tt)]).
Proof.
  intros env metrics.
  split; [reflexivity|]. split; [reflexivity|].
  exact (proj1 (log_metrics_forwards_numeric env 3 metrics [] eq_refl eq_refl)
           _ eq_refl).
Defined.

(** C8: on the coordinator process, a metrics mapping with a value that
    does not support the [.3f] format makes [log_metrics] raise to the
    caller, with the exception of the first such value and with nothing
    logged or forwarded: the summary is built before the [try] block.  A
    string is such a value. *)
Theorem log_metrics_summary_raises :
  (forall env completed_steps metrics t,
     is_main_process env = true ->
     forallb (fun kv => supports_3f (snd kv)) metrics = false ->
     exists k v e,
       In (k, v) metrics /\ format_3f v = inl e /\
       log_metrics env completed_steps metrics t = (inl e, t)) /\
  (forall s, supports_3f (VStr s) = false).
Proof.
  split; [|reflexivity].
  intros env steps metrics t Hmain Hbad.
  destruct (pretty_items_raises metrics [] Hbad) as (k & v & e & Hin & Hf & Hp).
  exists k, v, e. split; [exact Hin|]. split; [exact Hf|].
  rewrite log_metrics_main by exact Hmain. now rewrite Hp.
Qed.

Lemma log_metrics_summary_raises_witness :
  let env := sample_env true client_up in
  let metrics := [(KStr "loss", VFloat 0.5%float);
                  (KStr "split", VStr "train")] in
  is_main_process env = true /\
  forallb (fun kv => supports_3f (snd kv)) metrics = false /\
  exists k v e,
    In (k, v) metrics /\ format_3f v = inl e /\
    log_metrics env 3 metrics [] = (inl e, []).
Proof.
  intros env metrics.
  split; [reflexivity|]. split; [reflexivity|].
  exact (proj1 log_metrics_summary_raises env 3%Z metrics [] eq_refl eq_refl).
Defined.



(** * Further properties *)

(** ** More on dictionaries *)

Lemma key_eqb_trans (k1 k2 k3 : pykey) :
  key_eqb k1 k2 = true -> key_eqb k2 k3 = true -> key_eqb k1 k3 = true.
Proof.
  destruct k1 as [s1|z1|[|]|], k2 as [s2|z2|[|]|], k3 as [s3|z3|[|]|];
    cbn [key_eqb key_num]; intros H1 H2; try discriminate;
    rewrite ?String.eqb_eq, ?Z.eqb_eq in *; congruence.
Qed.

(** Keys equal to a third are equal or unequal to a fourth together. *)
Lemma key_eqb_congr (k1 k2 k : pykey) :
  key_eqb k1 k2 = true -> key_eqb k1 k = key_eqb k2 k.
Proof.
  intro E. destruct (key_eqb k2 k) eqn:E2.
  - exact (key_eqb_trans _ _ _ E E2).
  - destruct (key_eqb k1 k) eqn:E1; [|reflexivity].
    rewrite key_eqb_sym in E.
    now rewrite (key_eqb_trans _ _ _ E E1) in E2.
Qed.

(** Lookup after an assignment. *)
Lemma dict_get_set (d : pydict) (k : pykey) (v : pyval) (k' : pykey) :
  dict_get (dict_set d k v) k'
  = if key_eqb k k' then Some v else dict_get d k'.
Proof.
  induction d as [|[k0 v0] d IH]; simpl; [reflexivity|].
  destruct (key_eqb k0 k) eqn:E; simpl.
  - rewrite (key_eqb_congr _ _ k' E). now destruct (key_eqb k k').
  - rewrite IH. destruct (key_eqb k0 k') eqn:E0; [|reflexivity].
    destruct (key_eqb k k') eqn:E1; [|reflexivity].
    rewrite key_eqb_sym in E1.
    now rewrite (key_eqb_trans _ _ _ E0 E1) in E.
Qed.

Lemma dict_get_none (d : pydict) (k : pykey) :
  dict_mem d k = false -> dict_get d k = None.
Proof.
  induction d as [|[k0 v0] d IH]; simpl; [reflexivity|].
  intro H. apply orb_false_iff in H. destruct H as [-> H]. now apply IH.
Qed.

(** Lookup after an update by a dictionary: the update first. *)
Lemma dict_get_update (d l : pydict) (k : pykey) :
  dict_wf l = true ->
  dict_get (dict_update d l) k
  = match dict_get l k with Some v => Some v | None => dict_get d k end.
Proof.
  revert d. induction l as [|[k0 v0] l IH]; intros d Hwf; [reflexivity|].
  simpl in Hwf. apply andb_true_iff in Hwf. destruct Hwf as [Hk Hl].
  apply negb_true_iff in Hk.
  change (dict_update d ((k0, v0) :: l))
    with (dict_update (dict_set d k0 v0) l).
  rewrite IH by exact Hl. rewrite dict_get_set. simpl.
  destruct (key_eqb k0 k) eqn:E; [|reflexivity].
  rewrite dict_get_none; [reflexivity|].
  apply dict_mem_false. intros k1 v1 Hin.
  rewrite key_eqb_sym, <- (key_eqb_congr _ _ k1 E), key_eqb_sym.
  exact (proj1 (dict_mem_false l k0) Hk k1 v1 Hin).
Qed.

(** Updating by a dictionary none of whose keys is held appends it. *)
Lemma dict_update_fresh (d l : pydict) :
  dict_wf l = true ->
  (forall k v, In (k, v) l -> dict_mem d k = false) ->
  dict_update d l = d ++ l.
Proof.
  revert d. induction l as [|[k v] l IH]; intros d Hwf Hfresh.
  - simpl. now rewrite app_nil_r.
  - simpl in Hwf. apply andb_true_iff in Hwf. destruct Hwf as [Hk Hl].
    apply negb_true_iff in Hk.
    change (dict_update d ((k, v) :: l)) with (dict_update (dict_set d k v) l).
    rewrite dict_set_fresh by (apply (Hfresh k v); now left).
    rewrite IH; [now rewrite <- app_assoc|exact Hl|].
    intros k' v' Hin. rewrite dict_mem_app.
    rewrite (Hfresh k' v') by now right. simpl.
    rewrite key_eqb_sym, orb_false_r.
    exact (proj1 (dict_mem_false l k) Hk k' v' Hin).
Qed.

Lemma dict_update_nil_wf (l : pydict) :
  dict_wf l = true -> dict_update [] l = l.
Proof. intro H. now apply dict_update_fresh. Qed.

(** ** More on [flatten_dict_config] *)

Lemma assignments_flat (separator : string) (d : pydict) :
  forallb (fun kv => negb (is_mapping (snd kv))) d = true ->
  assignments separator d = d.
Proof.
  unfold assignments.
  induction d as [|[k v] d IH]; simpl; [reflexivity|].
  intro H. apply andb_true_iff in H. destruct H as [Hv Hd].
  apply negb_true_iff in Hv. rewrite Hv. simpl. now rewrite IH.
Qed.

(** X1: a dictionary with no mapping among its values flattens to itself,
    whatever the separator; so flattening twice is flattening once, for
    every nested mapping and every pair of separators. *)
Theorem flatten_dict_config_idempotent :
  (forall d separator,
     dict_wf d = true ->
     forallb (fun kv => negb (is_mapping (snd kv))) d = true ->
     flatten_dict_config d separator = d) /\
  (forall d separator separator',
     flatten_dict_config (flatten_dict_config d separator) separator'
     = flatten_dict_config d separator).
Proof.
  assert (Hflat : forall d separator,
     dict_wf d = true ->
     forallb (fun kv => negb (is_mapping (snd kv))) d = true ->
     flatten_dict_config d separator = d).
  { intros d separator Hwf Hleaf. unfold flatten_dict_config.
    rewrite flatten_value_dict, assignments_flat by exact Hleaf.
    now apply dict_update_nil_wf. }
  split; [exact Hflat|].
  intros d separator separator'. apply Hflat.
  - unfold flatten_dict_config. rewrite flatten_value_dict.
    now apply dict_update_wf.
  - apply forallb_forall. intros [k v] Hin. simpl.
    unfold flatten_dict_config in Hin.
    now rewrite (flatten_value_leaves_only _ _ _ _ Hin).
Qed.

Lemma flatten_dict_config_idempotent_witness :
  let d := [(KStr "lr", VFloat 0.5%float); (KInt 3, VList [VInt 1]);
            (KStr "a.b", VNone)] in
  dict_wf d = true /\
  forallb (fun kv => negb (is_mapping (snd kv))) d = true /\
  flatten_dict_config d "/" = d.
Proof.
  intro d. split; [reflexivity|]. split; [reflexivity|].
  exact (proj1 flatten_dict_config_idempotent d "/" eq_refl eq_refl).
Defined.

Lemma distinct_NoDup (l : list string) : distinct l = true -> NoDup l.
Proof.
  induction l as [|s l IH]; simpl; intro H; constructor.
  - apply andb_true_iff in H. destruct H as [H _].
    apply negb_true_iff in H. intro Hin.
    assert (E : existsb (String.eqb s) l = true)
      by (apply existsb_exists; exists s; auto using String.eqb_refl).
    congruence.
  - apply andb_true_iff in H. now apply IH.
Qed.

Lemma NoDup_map_app {A B : Type} (f : A -> B) (l1 l2 : list A) :
  NoDup (map f (l1 ++ l2)) -> NoDup (map f l1) /\ NoDup (map f l2).
Proof.
  rewrite map_app. intro H. split.
  - now apply NoDup_app_remove_r in H.
  - now apply NoDup_app_remove_l in H.
Qed.

Lemma NoDup_map_flat_map {A B C : Type} (f : B -> C) (seg : A -> list B)
    (l : list A) (x : A) :
  NoDup (map f (flat_map seg l)) -> In x l -> NoDup (map f (seg x)).
Proof.
  induction l as [|a l IH]; simpl; [contradiction|].
  intros H [<-|Hin]; apply NoDup_map_app in H; destruct H; auto.
Qed.

Lemma flat_map_ext_in {A B : Type} (f g : A -> list B) (l : list A) :
  (forall x, In x l -> f x = g x) -> flat_map f l = flat_map g l.
Proof.
  induction l as [|a l IH]; simpl; intro H; [reflexivity|].
  rewrite (H a) by now left. f_equal. apply IH. auto.
Qed.

Lemma map_flat_map {A B C : Type} (g : B -> C) (f : A -> list B) (l : list A) :
  map g (flat_map f l) = flat_map (fun x => map g (f x)) l.
Proof.
  induction l as [|a l IH]; simpl; [reflexivity|].
  now rewrite map_app, IH.
Qed.

Lemma flat_map_nil {A B : Type} (f : A -> list B) (l : list A) :
  flat_map f l = [] <-> forall x, In x l -> f x = [].
Proof.
  induction l as [|a l IH]; simpl.
  - split; [contradiction|reflexivity].
  - split.
    + intros H x [<-|Hin]; apply app_eq_nil in H; destruct H as [Ha Hl];
        [exact Ha|now apply IH].
    + intro H. rewrite (H a) by now left. apply IH. auto.
Qed.

(** Distinct strings under keys that agree with them make a dictionary. *)
Lemma mapped_wf {A : Type} (f : A -> string) (g : A -> pykey)
    (h : A -> pyval) (l : list A) :
  NoDup (map f l) ->
  (forall a b, In a l -> In b l -> key_eqb (g a) (g b) = true -> f a = f b) ->
  dict_wf (map (fun a => (g a, h a)) l) = true.
Proof.
  induction l as [|a l IH]; simpl; intros Hnd Hagree; [reflexivity|].
  inversion Hnd as [|? ? Hnotin Hnd']; subst.
  rewrite IH by auto. rewrite andb_true_r.
  apply negb_true_iff, dict_mem_false.
  intros k' v' Hin. apply in_map_iff in Hin.
  destruct Hin as (b & E & Hb). inversion E; subst.
  destruct (key_eqb (g b) (g a)) eqn:Ek; [|reflexivity].
  exfalso. apply Hnotin. rewrite <- (Hagree b a); auto.
  apply in_map. exact Hb.
Qed.

Lemma leaves_leaf (v : pyval) : is_mapping v = false -> leaves v = [].
Proof. destruct v; simpl; intro H; (reflexivity || discriminate). Qed.

Lemma dotted_cons (k : pykey) (p : list pykey) :
  p <> [] ->
  dotted (k :: p) = (str_of_key k ++ default_separator ++ dotted p)%string.
Proof. destruct p; [congruence|reflexivity]. Qed.

(** The key of a leaf's path is one of the keys assigned. *)
Lemma leaf_key_assigned (separator : string) (d : pydict) (p : list pykey)
    (x : pyval) :
  deep_wf (VDict d) = true ->
  In (p, x) (leaves (VDict d)) ->
  In (path_key separator p) (map fst (assignments separator d)).
Proof.
  intros Hwf Hin.
  pose proof (flatten_value_complete _ Hwf separator p x Hin) as H.
  rewrite flatten_value_dict in H.
  apply dict_update_key_from in H. now destruct H as [[]|H].
Qed.

(** When no two leaves have the same dotted path, the result is the
    leaves in traversal order, each under the key of its path. *)
Lemma flatten_value_exact (v : pyval) :
  deep_wf v = true ->
  NoDup (dotted_paths v) ->
  flatten_value v default_separator = flat_items default_separator v.
Proof.
  induction v as [v Hv|d IH] using pyval_nested_ind; intros Hwf Hnd.
  - rewrite flatten_value_leaf by exact Hv.
    unfold flat_items. now rewrite leaves_leaf.
  - pose proof Hwf as Hwf0.
    rewrite deep_wf_dict in Hwf. apply andb_true_iff in Hwf.
    destruct Hwf as [Hwf Hdeep].
    rewrite forallb_forall in Hdeep. rewrite Forall_forall in IH.
    assert (Ha : assignments default_separator d
                 = flat_items default_separator (VDict d)).
    { unfold assignments, flat_items. rewrite leaves_dict, map_flat_map.
      apply flat_map_ext_in. intros [k0 v0] Hin. cbn [fst snd].
      destruct (is_mapping v0) eqn:Hm; [|reflexivity].
      assert (Hnd0 : NoDup (dotted_paths v0)).
      { unfold dotted_paths in Hnd. rewrite leaves_dict in Hnd.
        pose proof (NoDup_map_flat_map _ _ _ _ Hnd Hin) as H.
        cbn [fst snd] in H. rewrite Hm, map_map in H. cbn [fst snd] in H.
        rewrite (map_ext_in _
                   (fun pv => (str_of_key k0 ++ default_separator
                               ++ dotted (fst pv))%string)) in H.
        - rewrite <- (map_map (fun pv => dotted (fst pv))
                        (fun s => (str_of_key k0 ++ default_separator ++ s)%string))
            in H.
          exact (NoDup_map_inv _ _ H).
        - intros [p' x'] Hp. simpl. apply dotted_cons.
          exact (leaves_nonempty _ _ _ Hp). }
      pose proof (IH (k0, v0) Hin (Hdeep _ Hin) Hnd0) as E.
      cbn [fst snd] in E. rewrite E.
      unfold flat_items. rewrite !map_map. apply map_ext_in.
      intros [p' x'] Hp. unfold rekey. simpl fst. simpl snd.
      pose proof (leaves_nonempty _ _ _ Hp) as Hne.
      now rewrite path_key_cons, str_of_path_key. }
    rewrite flatten_value_dict, Ha.
    apply dict_update_nil_wf.
    unfold flat_items.
    apply (mapped_wf (fun pv => dotted (fst pv))); [exact Hnd|].
    intros [pa xa] [pb xb] Hina Hinb E. cbn [fst snd] in *.
    rewrite <- (str_of_path_key pa) by exact (leaves_nonempty _ _ _ Hina).
    rewrite <- (str_of_path_key pb) by exact (leaves_nonempty _ _ _ Hinb).
    f_equal.
    apply (assignments_coherent default_separator d Hwf); [| |exact E].
    + exact (leaf_key_assigned _ _ _ _ Hwf0 Hina).
    + exact (leaf_key_assigned _ _ _ _ Hwf0 Hinb).
Qed.

(** X2: when the input is a dictionary at every depth and no two of its
    leaves have the same dotted path, flattening with the default
    separator returns one item for each leaf, in the order of the
    traversal, under the key of the leaf's path and with its value. *)
Theorem flatten_dict_config_traversal_order :
  forall d,
    deep_wf (VDict d) = true ->
    distinct (dotted_paths (VDict d)) = true ->
    flatten_dict_config d default_separator
    = map (fun pv => (path_key default_separator (fst pv), snd pv))
          (leaves (VDict d)).
Proof.
  intros d Hwf Hd. unfold flatten_dict_config.
  now apply flatten_value_exact, distinct_NoDup.
Qed.

Lemma flatten_dict_config_traversal_order_witness :
  let d := [(KInt 7, VStr "x");
            (KStr "b", VDict [(KStr "z", VInt 1); (KStr "a", VDict [])]);
            (KStr "a", VDict [(KBool true, VDict [(KNone, VInt 2)])])] in
  deep_wf (VDict d) = true /\
  distinct (dotted_paths (VDict d)) = true /\
  flatten_dict_config d default_separator
  = [(KInt 7, VStr "x"); (KStr "b.z", VInt 1); (KStr "a.True.None", VInt 2)].
Proof.
  intro d. split; [reflexivity|]. split; [reflexivity|].
  exact (flatten_dict_config_traversal_order d eq_refl eq_refl).
Defined.

(** X3: the [separator] argument joins the first step of a path only.
    For a dictionary at every depth and any separator, each item of the
    result is a leaf under its top-level key, or under
    [str(k) + separator + rest] where [rest] is the later keys of the
    path joined by dots; and every leaf has that key in the result. *)
Theorem flatten_dict_config_separator_first_step_only :
  forall d separator,
    deep_wf (VDict d) = true ->
    (forall k x,
       In (k, x) (flatten_dict_config d separator) ->
       In ([k], x) (leaves (VDict d)) \/
       exists k0 rest,
         rest <> [] /\ In (k0 :: rest, x) (leaves (VDict d)) /\
         k = KStr (str_of_key k0 ++ separator
                   ++ String.concat "." (map str_of_key rest))) /\
    (forall k x,
       In ([k], x) (leaves (VDict d)) ->
       In k (map fst (flatten_dict_config d separator))) /\
    (forall k0 rest x,
       rest <> [] -> In (k0 :: rest, x) (leaves (VDict d)) ->
       In (KStr (str_of_key k0 ++ separator
                 ++ String.concat "." (map str_of_key rest)))
          (map fst (flatten_dict_config d separator))).
Proof.
  intros d separator Hwf. unfold flatten_dict_config.
  split; [|split].
  - intros k x Hin.
    destruct (flatten_value_sound _ Hwf separator k x Hin) as (p & Hp & ->).
    destruct p as [|k0 [|k1 rest]].
    + now apply leaves_nonempty in Hp.
    + now left.
    + right. exists k0, (k1 :: rest). split; [discriminate|]. now split.
  - intros k x Hin.
    exact (flatten_value_complete _ Hwf separator [k] x Hin).
  - intros k0 rest x Hne Hin.
    pose proof (flatten_value_complete _ Hwf separator _ x Hin) as H.
    now rewrite path_key_cons in H.
Qed.

Lemma flatten_dict_config_separator_first_step_only_witness :
  deep_wf (VDict nested_example) = true /\
  [KStr "c"; KStr "d"] <> [] /\
  In ([KStr "a"; KStr "c"; KStr "d"], VInt 2) (leaves (VDict nested_example)) /\
  In (KStr "a/c.d") (map fst (flatten_dict_config nested_example "/")).
Proof.
  assert (Hin : In ([KStr "a"; KStr "c"; KStr "d"], VInt 2)
                   (leaves (VDict nested_example)))
    by (right; left; reflexivity).
  assert (Hne : [KStr "c"; KStr "d"] <> []) by discriminate.
  split; [reflexivity|]. split; [exact Hne|]. split; [exact Hin|].
  exact (proj2 (proj2 (flatten_dict_config_separator_first_step_only
                         nested_example "/" eq_refl))
           (KStr "a") [KStr "c"; KStr "d"] (VInt 2) Hne Hin).
Defined.

(** A mapping without a leaf flattens to nothing. *)
Lemma flatten_value_no_leaves (v : pyval) :
  forall separator, leaves v = [] -> flatten_value v separator = [].
Proof.
  induction v as [v Hv|d IH] using pyval_nested_ind; intros separator H.
  - now apply flatten_value_leaf.
  - rewrite Forall_forall in IH.
    rewrite leaves_dict in H.
    rewrite flatten_value_dict.
    replace (assignments separator d) with (@nil (pykey * pyval));
      [reflexivity|].
    symmetry. unfold assignments. apply flat_map_nil.
    intros [k0 v0] Hin. cbn [fst snd].
    pose proof (proj1 (flat_map_nil _ _) H (k0, v0) Hin) as Hseg.
    cbn [fst snd] in Hseg.
    destruct (is_mapping v0); [|discriminate].
    apply map_eq_nil in Hseg.
    pose proof (IH (k0, v0) Hin default_separator Hseg) as E.
    cbn [fst snd] in E. now rewrite E.
Qed.

(** X4: an entry whose value is a mapping without any leaf (an empty
    mapping, or mappings nested down to empty ones) leaves no trace in
    the result: the result is that of the input without the entry. *)
Theorem flatten_dict_config_drops_empty_mappings :
  forall d1 d2 k v separator,
    is_mapping v = true ->
    leaves v = [] ->
    flatten_dict_config (d1 ++ (k, v) :: d2) separator
    = flatten_dict_config (d1 ++ d2) separator.
Proof.
  intros d1 d2 k v separator Hm Hl. unfold flatten_dict_config.
  rewrite !flatten_value_dict. f_equal.
  unfold assignments. rewrite !flat_map_app. simpl. rewrite Hm.
  now rewrite (flatten_value_no_leaves v default_separator Hl).
Qed.

Lemma flatten_dict_config_drops_empty_mappings_witness :
  let v := VDict [(KStr "x", VDict []); (KStr "y", VDict [(KInt 0, VDict [])])] in
  is_mapping v = true /\
  leaves v = [] /\
  flatten_dict_config ([(KStr "lr", VInt 1)] ++ (KStr "opt", v) :: []) "."
  = flatten_dict_config ([(KStr "lr", VInt 1)] ++ []) ".".
Proof.
  intro v. split; [reflexivity|]. split; [reflexivity|].
  exact (flatten_dict_config_drops_empty_mappings
           [(KStr "lr", VInt 1)] [] (KStr "opt") v "." eq_refl eq_refl).
Defined.

(** ** More on [init_wandb] *)

(** [init_wandb] stops before any effect, or gets as far as the call. *)
Lemma init_wandb_cases env cfg run_dir c :
  (exists e, init_wandb env cfg run_dir (Some c) [] = (inl e, [])) \/
  exists resume n,
    resume_policy (wandb_resume (finetune cfg)) [] = (inr resume, []) /\
    derive_name run_dir (wandb_workspace_root (finetune cfg)) []
      = (inr n, []).
Proof.
  destruct (resume_policy (wandb_resume (finetune cfg)) [])
    as [[e|resume] t1] eqn:Hr.
  { pose proof (resume_policy_silent (wandb_resume (finetune cfg)) []) as Hs.
    rewrite Hr in Hs. simpl in Hs. subst t1.
    left. exists e. now apply init_wandb_policy_raises. }
  apply resume_policy_accepts in Hr as Hr'. destruct Hr' as [-> _].
  destruct (derive_name run_dir (wandb_workspace_root (finetune cfg)) [])
    as [[e|n] t2] eqn:Hn.
  { pose proof (derive_name_silent run_dir
                  (wandb_workspace_root (finetune cfg)) []) as Hs.
    rewrite Hn in Hs. simpl in Hs. subst t2.
    left. exists e. now apply (init_wandb_name_raises _ _ _ _ resume). }
  apply derive_name_ok in Hn as Hn'. destruct Hn' as [-> _].
  right. now exists resume, n.
Qed.

Lemma init_calls_app (t1 t2 : trace) :
  init_calls (t1 ++ t2) = init_calls t1 ++ init_calls t2.
Proof. apply flat_map_app. Qed.

(** The calls of the client in the events of [init_wandb_run]. *)
Lemma init_wandb_run_calls env cfg run_dir c resume n :
  resume_policy (wandb_resume (finetune cfg)) [] = (inr resume, []) ->
  derive_name run_dir (wandb_workspace_root (finetune cfg)) [] = (inr n, []) ->
  init_calls (snd (init_wandb env cfg run_dir (Some c) []))
  = [init_args env cfg c resume n].
Proof.
  intros Hr Hn. rewrite (init_wandb_run _ _ _ _ resume n) by assumption.
  simpl. destruct (128 <? String.length n)%nat; reflexivity.
Qed.

(** X5: [init_wandb] either raises before any effect, with the trace
    empty, or calls the tracking client exactly once, and then its
    outcome follows the answer: a run is returned, an exception of the
    client is passed on as it is, and an answer that is not a run becomes
    the [ValueError] of line 73. *)
Theorem init_wandb_outcome_follows_answer :
  forall env cfg run_dir config,
    let res := run_M (init_wandb env cfg run_dir config) in
    ((exists e, fst res = inl e) /\ snd res = []) \/
    exists a,
      init_calls (snd res) = [a] /\
      fst res = match wandb_init env a with
                | inl e => inl e
                | inr (InitRun r) => inr r
                | inr InitOther => inl (ValueError InitFailed)
                end.
Proof.
  intros env cfg run_dir config. unfold run_M.
  assert (H : forall c,
    let res := init_wandb env cfg run_dir (Some c) [] in
    ((exists e, fst res = inl e) /\ snd res = []) \/
    exists a,
      init_calls (snd res) = [a] /\
      fst res = match wandb_init env a with
                | inl e => inl e
                | inr (InitRun r) => inr r
                | inr InitOther => inl (ValueError InitFailed)
                end).
  { intro c.
    destruct (init_wandb_cases env cfg run_dir c)
      as [[e He]|(resume & n & Hr & Hn)]; simpl.
    - left. rewrite He. simpl. eauto.
    - right. exists (init_args env cfg c resume n).
      split; [now apply init_wandb_run_calls|].
      now rewrite (init_wandb_run _ _ _ _ resume n) by assumption. }
  destruct config as [c|]; [apply H|].
  destruct (cfg_dict cfg) as [e|c] eqn:Hc.
  - left. rewrite (init_wandb_no_config _ _ _ e) by exact Hc. simpl. eauto.
  - rewrite (init_wandb_default_config _ _ _ c) by exact Hc. apply H.
Qed.

(** X6: in every call of the tracking client the resume policy
    ["always"] has become ["allow"] and ["never"] is passed as it is;
    no other policy reaches the client. *)
Theorem init_wandb_resume_mapping :
  forall env cfg run_dir config a,
    In a (init_calls (snd (run_M (init_wandb env cfg run_dir config)))) ->
    wandb_resume (finetune cfg) = VStr "always" /\ wi_resume a = "allow" \/
    wandb_resume (finetune cfg) = VStr "never" /\ wi_resume a = "never".
Proof.
  intros env cfg run_dir config a Hin. unfold run_M in Hin.
  assert (Hc : exists c,
             In a (init_calls (snd (init_wandb env cfg run_dir (Some c) [])))).
  { destruct config as [c|]; [now exists c|].
    destruct (cfg_dict cfg) as [e|c] eqn:Hd.
    - rewrite (init_wandb_no_config _ _ _ e) in Hin by exact Hd. destruct Hin.
    - rewrite (init_wandb_default_config _ _ _ c) in Hin by exact Hd.
      now exists c. }
  clear Hin. destruct Hc as [c Hin].
  destruct (init_wandb_cases env cfg run_dir c)
    as [[e He]|(resume & n & Hr & Hn)].
  - rewrite He in Hin. destruct Hin.
  - rewrite (init_wandb_run_calls _ _ _ _ resume n) in Hin by assumption.
    destruct Hin as [<-|[]]. simpl.
    apply resume_policy_accepts in Hr. tauto.
Qed.

Lemma init_wandb_resume_mapping_witness :
  let env := sample_env true client_up in
  let cfg := sample_cfg (VStr "always") VNone in
  let a := init_args env cfg [] "allow" "/runs/a" in
  In a (init_calls (snd (run_M (init_wandb env cfg "/runs/a" (Some []))))) /\
  (wandb_resume (finetune cfg) = VStr "always" /\ wi_resume a = "allow" \/
   wandb_resume (finetune cfg) = VStr "never" /\ wi_resume a = "never").
Proof.
  intros env cfg a.
  assert (Hin : In a (init_calls
                        (snd (run_M (init_wandb env cfg "/runs/a" (Some []))))))
    by (left; reflexivity).
  split; [exact Hin|].
  exact (init_wandb_resume_mapping env cfg "/runs/a" (Some []) a Hin).
Defined.




Lemma resume_policy_accepted (v : pyval) (t : trace) :
  eq_str v "always" || eq_str v "never" = true ->
  exists resume, resume_policy v t = (inr resume, t).
Proof.
  intro H. unfold resume_policy.
  destruct (eq_str v "always"); [now exists "allow"|].
  simpl in H. rewrite H. now exists "never".
Qed.



Lemma str_replace_char_removes (old new : ascii) (s : string) :
  Ascii.eqb new old = false ->
  str_mem old (str_replace_char old new s) = false.
Proof.
  intro Hne. induction s as [|c s IH]; simpl; [reflexivity|].
  rewrite IH, orb_false_r.
  destruct (Ascii.eqb c old) eqn:E; [exact Hne|exact E].
Qed.

Lemma str_replace_char_absent (old new : ascii) (s : string) :
  str_mem old s = false -> str_replace_char old new s = s.
Proof.
  induction s as [|c s IH]; simpl; [reflexivity|].
  intro H. apply orb_false_iff in H. destruct H as [-> H]. now rewrite IH.
Qed.

(** A call of the client comes with an accepted policy and a derived
    name. *)
Lemma init_wandb_call_inv env cfg run_dir config a :
  In a (init_calls (snd (run_M (init_wandb env cfg run_dir config)))) ->
  exists c resume n,
    resume_policy (wandb_resume (finetune cfg)) [] = (inr resume, []) /\
    derive_name run_dir (wandb_workspace_root (finetune cfg)) []
      = (inr n, []) /\
    a = init_args env cfg c resume n /\
    init_wandb env cfg run_dir config [] = init_wandb env cfg run_dir (Some c) [].
Proof.
  unfold run_M. intro Hin.
  assert (Hc : exists c,
             init_wandb env cfg run_dir config []
             = init_wandb env cfg run_dir (Some c) []).
  { destruct config as [c|]; [now exists c|].
    destruct (cfg_dict cfg) as [e|c] eqn:Hd.
    - rewrite (init_wandb_no_config _ _ _ e) in Hin by exact Hd. destruct Hin.
    - exists c. now apply init_wandb_default_config. }
  destruct Hc as [c Hc]. rewrite Hc in Hin.
  destruct (init_wandb_cases env cfg run_dir c)
    as [[e He]|(resume & n & Hr & Hn)].
  - rewrite He in Hin. destruct Hin.
  - rewrite (init_wandb_run_calls _ _ _ _ resume n) in Hin by assumption.
    destruct Hin as [<-|[]]. now exists c, resume, n.
Qed.

(** X8: when no identifier is configured, the identifier passed to the
    tracking client is a string without a path separator; and when the
    run name has no path separator the identifier is the run name. *)
Theorem init_wandb_fallback_id_has_no_separator :
  forall env cfg run_dir config a,
    truthy (wandb_id (finetune cfg)) = false ->
    In a (init_calls (snd (run_M (init_wandb env cfg run_dir config)))) ->
    exists s n,
      wi_id a = VStr s /\ str_mem "/" s = false /\
      fst (run_M (derive_name run_dir (wandb_workspace_root (finetune cfg))))
        = inr n /\
      (str_mem "/" n = false -> s = n).
Proof.
  intros env cfg run_dir config a Hid Hin.
  destruct (init_wandb_call_inv _ _ _ _ _ Hin)
    as (c & resume & n & _ & Hn & -> & _).
  exists (str_replace_char "/" "_" n), n. unfold run_M. rewrite Hn. simpl.
  unfold derive_id. rewrite Hid. simpl.
  split; [reflexivity|]. split; [now apply str_replace_char_removes|].
  split; [reflexivity|]. apply str_replace_char_absent.
Qed.

Lemma init_wandb_fallback_id_has_no_separator_witness :
  let env := sample_env true client_up in
  let cfg := sample_cfg (VStr "always") (VStr "/runs") in
  let a := init_args env cfg [] "allow" "exp/seed1" in
  truthy (wandb_id (finetune cfg)) = false /\
  In a (init_calls
          (snd (run_M (init_wandb env cfg "/runs/exp/seed1" (Some []))))) /\
  exists s n,
    wi_id a = VStr s /\ str_mem "/" s = false /\
    fst (run_M (derive_name "/runs/exp/seed1" (VStr "/runs"))) = inr n /\
    (str_mem "/" n = false -> s = n).
Proof.
  intros env cfg a.
  assert (Hin : In a (init_calls
                  (snd (run_M (init_wandb env cfg "/runs/exp/seed1" (Some []))))))
    by (left; reflexivity).
  split; [reflexivity|]. split; [exact Hin|].
  exact (init_wandb_fallback_id_has_no_separator env cfg "/runs/exp/seed1"
           (Some []) a eq_refl Hin).
Defined.

(** X9: a workspace root that is truthy and not a string (a number, a
    list, ...) makes [init_wandb] raise before any effect: line 49 adds
    a string to it.  With the configuration given and the resume policy
    accepted, the exception is a [TypeError]. *)
Theorem init_wandb_root_not_a_string :
  forall env cfg run_dir config t,
    truthy (wandb_workspace_root (finetune cfg)) = true ->
    is_str (wandb_workspace_root (finetune cfg)) = false ->
    exists e,
      init_wandb env cfg run_dir config t = (inl e, t) /\
      (config <> None ->
       eq_str (wandb_resume (finetune cfg)) "always"
         || eq_str (wandb_resume (finetune cfg)) "never" = true ->
       e = TypeError (BadConcat (wandb_workspace_root (finetune cfg)))).
Proof.
  intros env cfg run_dir config t Ht Hs.
  assert (Hn : derive_name run_dir (wandb_workspace_root (finetune cfg)) t
               = (inl (TypeError (BadConcat (wandb_workspace_root (finetune cfg)))), t)).
  { unfold derive_name. rewrite Ht.
    destruct (wandb_workspace_root (finetune cfg)); (reflexivity || discriminate). }
  assert (Hc : forall c, exists e,
             init_wandb env cfg run_dir (Some c) t = (inl e, t) /\
             (eq_str (wandb_resume (finetune cfg)) "always"
                || eq_str (wandb_resume (finetune cfg)) "never" = true ->
              e = TypeError (BadConcat (wandb_workspace_root (finetune cfg))))).
  { intro c.
    destruct (resume_policy (wandb_resume (finetune cfg)) t) as [[e|s] t1] eqn:Hr.
    - pose proof (resume_policy_silent (wandb_resume (finetune cfg)) t) as Hsil.
      rewrite Hr in Hsil. simpl in Hsil. subst t1.
      exists e. split; [now apply init_wandb_policy_raises|].
      intro Hv. destruct (resume_policy_accepted _ t Hv) as [s Hs'].
      congruence.
    - apply resume_policy_accepts in Hr as Hr'. destruct Hr' as [-> _].
      eexists. split; [|reflexivity].
      now apply (init_wandb_name_raises _ _ _ _ s). }
  destruct config as [c|].
  - destruct (Hc c) as (e & He & Hv). exists e. split; [exact He|]. auto.
  - destruct (init_wandb_fails_any_config env cfg run_dir None t) as [e He].
    + intro c. destruct (Hc c) as (e & He & _). now exists e.
    + exists e. split; [exact He|]. intro Hn'. now contradict Hn'.
Qed.

Lemma init_wandb_root_not_a_string_witness :
  let env := sample_env true client_up in
  let cfg := sample_cfg (VStr "always") (VList [VStr "/runs"]) in
  truthy (wandb_workspace_root (finetune cfg)) = true /\
  is_str (wandb_workspace_root (finetune cfg)) = false /\
  exists e,
    init_wandb env cfg "/runs/a" (Some []) [] = (inl e, []) /\
    (Some (@nil (pykey * pyval)) <> None ->
     eq_str (wandb_resume (finetune cfg)) "always"
       || eq_str (wandb_resume (finetune cfg)) "never" = true ->
     e = TypeError (BadConcat (wandb_workspace_root (finetune cfg)))).
Proof.
  intros env cfg. split; [reflexivity|]. split; [reflexivity|].
  exact (init_wandb_root_not_a_string env cfg "/runs/a" (Some []) []
           eq_refl eq_refl).
Defined.

(** X10: [init_wandb] warns exactly about names that are cut.  A warning
    in its events is the one of line 58, with the whole run name, longer
    than 128 characters; and a call of the client under a name longer
    than 128 characters comes with that warning. *)
Theorem init_wandb_warns_when_truncating :
  forall env cfg run_dir config,
    let t := snd (run_M (init_wandb env cfg run_dir config)) in
    let name := fst (run_M (derive_name run_dir
                              (wandb_workspace_root (finetune cfg)))) in
    (forall who m,
       In (ELog who WARNING m) t ->
       exists n, name = inr n /\ who = LContext /\ m = MsgTruncating n /\
                 128 < String.length n) /\
    (forall a n,
       In a (init_calls t) -> name = inr n -> 128 < String.length n ->
       In (ELog LContext WARNING (MsgTruncating n)) t).
Proof.
  intros env cfg run_dir config t name. subst t name. unfold run_M.
  assert (H : (exists e, init_wandb env cfg run_dir config [] = (inl e, [])) \/
              exists c resume n,
                resume_policy (wandb_resume (finetune cfg)) [] = (inr resume, []) /\
                derive_name run_dir (wandb_workspace_root (finetune cfg)) []
                  = (inr n, []) /\
                init_wandb env cfg run_dir config []
                = init_wandb env cfg run_dir (Some c) []).
  { destruct config as [c|].
    - destruct (init_wandb_cases env cfg run_dir c)
        as [He|(resume & n & Hr & Hn)]; [now left|].
      right. now exists c, resume, n.
    - destruct (cfg_dict cfg) as [e|c] eqn:Hd.
      + left. exists e. now apply init_wandb_no_config.
      + rewrite (init_wandb_default_config _ _ _ c) by exact Hd.
        destruct (init_wandb_cases env cfg run_dir c)
          as [He|(resume & n & Hr & Hn)]; [now left|].
        right. now exists c, resume, n. }
  destruct H as [[e He]|(c & resume & n & Hr & Hn & Hc)].
  - rewrite He. simpl. split; [intros ? ? []|intros ? ? []].
  - rewrite Hc, (init_wandb_run _ _ _ _ resume n) by assumption.
    rewrite Hn. simpl.
    destruct (128 <? String.length n)%nat eqn:Hlen; simpl.
    + apply Nat.ltb_lt in Hlen. split.
      * intros who m [H|[H|[H|[]]]]; inversion H; subst. now exists n.
      * intros a n' _ Hn' _. inversion Hn'; subst. now left.
    + apply Nat.ltb_ge in Hlen. split.
      * intros who m [H|[H|[]]]; inversion H.
      * intros a n' _ Hn' Hl. inversion Hn'; subst. lia.
Qed.

Lemma init_wandb_warns_when_truncating_witness :
  let env := sample_env true client_up in
  let cfg := sample_cfg (VStr "always") VNone in
  let dir := str_repeat "d" 130 in
  let t := snd (run_M (init_wandb env cfg dir (Some []))) in
  In (init_args env cfg [] "allow" dir) (init_calls t) /\
  fst (run_M (derive_name dir VNone)) = inr dir /\
  128 < String.length dir /\
  In (ELog LContext WARNING (MsgTruncating dir)) t.
Proof.
  intros env cfg dir t.
  assert (Hin : In (init_args env cfg [] "allow" dir) (init_calls t))
    by (vm_compute; left; reflexivity).
  assert (Hlen : 128 < String.length dir) by (vm_compute; lia).
  split; [exact Hin|]. split; [reflexivity|]. split; [exact Hlen|].
  exact (proj2 (init_wandb_warns_when_truncating env cfg dir (Some []))
           _ dir Hin eq_refl Hlen).
Defined.

(** X19: what [init_wandb] logs is what it sends: every call of the
    tracking client is preceded by an [info] record on the root logger
    with the display name, the identifier and the resume value of that
    call. *)
Theorem init_wandb_logs_what_it_sends :
  forall env cfg run_dir config a,
    let t := snd (run_M (init_wandb env cfg run_dir config)) in
    In a (init_calls t) ->
    exists before answer,
      t = before
            ++ [ELog LRoot INFO
                  (MsgInitializing (wi_name a) (wi_id a) (wi_resume a));
                EWandbInit a answer] /\
      answer = wandb_init env a.
Proof.
  intros env cfg run_dir config a t Hin. subst t.
  destruct (init_wandb_call_inv _ _ _ _ _ Hin)
    as (c & resume & n & Hr & Hn & -> & Hc).
  unfold run_M. rewrite Hc.
  rewrite (init_wandb_run _ _ _ _ resume n) by assumption.
  simpl. eexists. eexists. split; reflexivity.
Qed.

Lemma init_wandb_logs_what_it_sends_witness :
  let env := sample_env true client_down in
  let cfg := sample_cfg (VStr "never") VNone in
  let a := init_args env cfg [] "never" "/runs/a" in
  In a (init_calls (snd (run_M (init_wandb env cfg "/runs/a" (Some []))))) /\
  exists before answer,
    snd (run_M (init_wandb env cfg "/runs/a" (Some [])))
    = before
        ++ [ELog LRoot INFO (MsgInitializing "/runs/a" (VStr "_runs_a") "never");
            EWandbInit a answer] /\
    answer = wandb_init env a.
Proof.
  intros env cfg a.
  assert (Hin : In a (init_calls
                        (snd (run_M (init_wandb env cfg "/runs/a" (Some []))))))
    by (left; reflexivity).
  split; [exact Hin|].
  exact (init_wandb_logs_what_it_sends env cfg "/runs/a" (Some []) a Hin).
Defined.

(** ** More on [setup_logging] *)

Lemma setup_logging_events env cfg output_dir run t :
  setup_logging env cfg output_dir run t =
  (inr tt,
   t ++ [EMkdir {| base := output_dir; below := "log" |};
         ELogFile
           {| base := output_dir;
              below :=
                "log/info_" ++ str_of_int (process_index env) ++ ".log" |};
         EBasicConfig]
     ++ role_events env cfg output_dir run
     ++ [EVerbosityError "datasets"; EVerbosityError "transformers"]).
Proof.
  unfold role_events. destruct (is_main_process env) eqn:Hmain.
  - rewrite setup_logging_main by exact Hmain.
    f_equal. simpl. rewrite <- !app_assoc. reflexivity.
  - unfold setup_logging. rewrite Hmain.
    unfold bind, emit. simpl. rewrite <- !app_assoc. reflexivity.
Qed.

(** X12: off the coordinator process [setup_logging] only configures
    logging: it sets the level of the module logger to [ERROR], never
    calls the tracking client and writes no [wandb_info.json], whether
    or not a run is passed in or tracking is enabled. *)
Theorem setup_logging_off_coordinator :
  forall env cfg output_dir run t,
    is_main_process env = false ->
    exists evs,
      setup_logging env cfg output_dir run t = (inr tt, t ++ evs) /\
      evs = [EMkdir {| base := output_dir; below := "log" |};
             ELogFile
               {| base := output_dir;
                  below :=
                    "log/info_" ++ str_of_int (process_index env) ++ ".log" |};
             EBasicConfig; ESetLevel ERROR;
             EVerbosityError "datasets"; EVerbosityError "transformers"] /\
      init_calls evs = [] /\ json_dumps evs = [].
Proof.
  intros env cfg output_dir run t Hmain. eexists.
  split; [apply setup_logging_events|].
  unfold role_events. rewrite Hmain. simpl. auto.
Qed.

Lemma setup_logging_off_coordinator_witness :
  let env := sample_env false client_up in
  let cfg := sample_cfg (VStr "always") VNone in
  is_main_process env = false /\
  exists evs,
    setup_logging env cfg "/runs/a" None [] = (inr tt, [] ++ evs) /\
    evs = [EMkdir {| base := "/runs/a"; below := "log" |};
           ELogFile {| base := "/runs/a"; below := "log/info_1.log" |};
           EBasicConfig; ESetLevel ERROR;
           EVerbosityError "datasets"; EVerbosityError "transformers"] /\
    init_calls evs = [] /\ json_dumps evs = [].
Proof.
  intros env cfg. split; [reflexivity|].
  exact (setup_logging_off_coordinator env cfg "/runs/a" None [] eq_refl).
Defined.

(** X13: on the coordinator process, when a run is passed in or when
    tracking is disabled, [setup_logging] never calls the tracking
    client; the file written holds the keys of the run passed in, or the
    empty dict when there is none. *)
Theorem setup_logging_without_init :
  forall env cfg output_dir run t,
    is_main_process env = true ->
    match run with
    | Some _ => true
    | None => negb (truthy (use_wandb (finetune cfg)))
    end = true ->
    exists evs,
      setup_logging env cfg output_dir run t = (inr tt, t ++ evs) /\
      init_calls evs = [] /\
      json_dumps evs = [(info_path output_dir, wandb_info run)].
Proof.
  intros env cfg output_dir run t Hmain Hrun. eexists.
  split; [apply setup_logging_events|].
  unfold role_events, start_run. rewrite Hmain.
  destruct run as [r|]; [simpl; auto|].
  apply negb_true_iff in Hrun. rewrite Hrun. simpl. auto.
Qed.

Lemma setup_logging_without_init_witness :
  let env := sample_env true client_up in
  let cfg := sample_cfg (VStr "sometimes") VNone in
  let r := {| run_name := "exp"; run_entity := "team";
              run_project_name := "rl"; run_id := "abc" |} in
  is_main_process env = true /\
  exists evs,
    setup_logging env cfg "/runs/a" (Some r) [] = (inr tt, [] ++ evs) /\
    init_calls evs = [] /\
    json_dumps evs = [(info_path "/runs/a", wandb_info (Some r))].
Proof.
  intros env cfg r. split; [reflexivity|].
  exact (setup_logging_without_init env cfg "/runs/a" (Some r) []
           eq_refl eq_refl).
Defined.

(** The calls of the client in [setup_logging] are those of the
    [init_wandb] it runs. *)
Lemma setup_logging_init_calls env cfg output_dir run a :
  In a (init_calls (snd (run_M (setup_logging env cfg output_dir run)))) ->
  run = None /\
  is_main_process env = true /\
  truthy (use_wandb (finetune cfg)) = true /\
  In a (init_calls
          (snd (run_M (init_wandb env cfg output_dir
                         (Some (coordinator_config env cfg)))))).
Proof.
  unfold run_M. rewrite setup_logging_events. simpl.
  unfold role_events, start_run.
  destruct (is_main_process env); [|intros []].
  destruct run as [r|]; [intros []|].
  destruct (truthy (use_wandb (finetune cfg))); [|intros []].
  unfold run_M.
  destruct (init_wandb env cfg output_dir (Some (coordinator_config env cfg)) [])
    as [[e|r] evs]; simpl; rewrite !init_calls_app; simpl;
    rewrite ?init_calls_app; simpl; rewrite ?app_nil_r; auto.
Qed.

(** X14: what the tracking client receives as [config] from
    [setup_logging].  Under the key ["python_env"] it holds the versions
    of the installed distributions; under any other key it holds the
    value of the flattened configuration when the configuration has the
    key, and otherwise the string of the accelerator state with that
    name: the configuration takes precedence over the accelerator
    state.  The run directory is the output directory. *)
Theorem setup_logging_config_precedence :
  forall env cfg output_dir run a,
    In a (init_calls (snd (run_M (setup_logging env cfg output_dir run)))) ->
    (forall k,
       dict_get (wi_config a) k =
       if key_eqb (KStr "python_env") k
       then Some (VDict (python_env (distributions env)))
       else
         match dict_get (flatten_dict_config (cfg_items cfg)
                                             default_separator) k with
         | Some v => Some v
         | None => dict_get (state_config (accelerator_state env)) k
         end) /\
    exists n,
      fst (run_M (derive_name output_dir
                    (wandb_workspace_root (finetune cfg)))) = inr n /\
      wi_name a = str_take 128 n.
Proof.
  intros env cfg output_dir run a Hin.
  apply setup_logging_init_calls in Hin. destruct Hin as (_ & _ & _ & Hin).
  unfold run_M in *.
  destruct (init_wandb_cases env cfg output_dir (coordinator_config env cfg))
    as [[e He]|(resume & n & Hr & Hn)].
  { rewrite He in Hin. destruct Hin. }
  rewrite (init_wandb_run_calls _ _ _ _ resume n) in Hin by assumption.
  destruct Hin as [<-|[]]. split.
  - intro k. unfold init_args. cbn [wi_config]. rewrite dict_get_set.
    destruct (key_eqb (KStr "python_env") k); [reflexivity|].
    unfold coordinator_config. apply dict_get_update.
    unfold flatten_dict_config. rewrite flatten_value_dict.
    now apply dict_update_wf.
  - exists n. rewrite Hn. auto.
Qed.

Lemma setup_logging_config_precedence_witness :
  let env := sample_env true client_up in
  let cfg := sample_cfg (VStr "always") VNone in
  let a := init_args env cfg (coordinator_config env cfg) "allow" "/runs/a" in
  In a (init_calls (snd (run_M (setup_logging env cfg "/runs/a" None)))) /\
  dict_get (wi_config a) (KStr "finetune.use_wandb") = Some (VBool true) /\
  dict_get (wi_config a) (KStr "num_processes") = Some (VStr "2").
Proof.
  intros env cfg a.
  assert (Hin : In a (init_calls
                        (snd (run_M (setup_logging env cfg "/runs/a" None)))))
    by (vm_compute; left; reflexivity).
  split; [exact Hin|].
  pose proof (proj1 (setup_logging_config_precedence env cfg "/runs/a" None a
                       Hin)) as H.
  split; [exact (H (KStr "finetune.use_wandb"))|exact (H (KStr "num_processes"))].
Defined.

(** X18: on the coordinator process with tracking enabled and no run
    passed in, whatever [init_wandb] raises, a configuration error (an
    unknown resume policy, a directory outside the root) as much as a
    failure of the client, is caught by [setup_logging]: it logs a
    warning with the exception, returns normally, starts no run and
    writes the empty dict to [wandb_info.json]. *)
Theorem setup_logging_downgrades_init_errors :
  forall env cfg output_dir t e,
    is_main_process env = true ->
    truthy (use_wandb (finetune cfg)) = true ->
    fst (run_M (init_wandb env cfg output_dir
                  (Some (coordinator_config env cfg)))) = inl e ->
    exists evs,
      setup_logging env cfg output_dir None t = (inr tt, t ++ evs) /\
      In (ELog LContext WARNING (MsgInitFailed e)) evs /\
      started_runs evs = [] /\
      json_dumps evs = [(info_path output_dir, [])].
Proof.
  intros env cfg output_dir t e Hmain Huse He. eexists.
  split; [apply setup_logging_main; exact Hmain|].
  destruct (init_wandb_started env cfg output_dir (coordinator_config env cfg))
    as (Hs & Hj & _).
  unfold start_run. rewrite Huse.
  destruct (run_M _) as [[e'|r] evs]; simpl in *; [|discriminate].
  inversion He; subst e'. split.
  - do 4 right. apply in_or_app. left. apply in_or_app. right. now left.
  - rewrite !started_runs_app, !json_dumps_app, Hs, Hj. simpl. auto.
Qed.

Lemma setup_logging_downgrades_init_errors_witness :
  let env := sample_env true client_up in
  let cfg := sample_cfg (VStr "if_not_interactive") VNone in
  is_main_process env = true /\
  truthy (use_wandb (finetune cfg)) = true /\
  fst (run_M (init_wandb env cfg "/runs/a"
                (Some (coordinator_config env cfg)))) = inl NotImplementedError /\
  exists evs,
    setup_logging env cfg "/runs/a" None [] = (inr tt, [] ++ evs) /\
    In (ELog LContext WARNING (MsgInitFailed NotImplementedError)) evs /\
    started_runs evs = [] /\
    json_dumps evs = [(info_path "/runs/a", [])].
Proof.
  intros env cfg.
  split; [reflexivity|]. split; [reflexivity|]. split; [reflexivity|].
  exact (setup_logging_downgrades_init_errors env cfg "/runs/a" []
           NotImplementedError eq_refl eq_refl eq_refl).
Defined.

(** ** More on [log_metrics] *)

(** On a dictionary whose values all support the format, the summary of
    line 123 has an item for each metric, in order. *)
Lemma pretty_items_from (metrics acc : pydict) :
  dict_wf metrics = true ->
  forallb (fun kv => supports_3f (snd kv)) metrics = true ->
  (forall k v, In (k, v) metrics -> dict_mem acc k = false) ->
  pretty_items metrics acc
  = inr (acc ++ map (fun kv => (fst kv, VStr (rendered (snd kv)))) metrics).
Proof.
  revert acc.
  induction metrics as [|[k v] rest IH]; intros acc Hwf Hfmt Hfresh; simpl.
  - now rewrite app_nil_r.
  - simpl in Hwf, Hfmt.
    apply andb_true_iff in Hwf. destruct Hwf as [Hk Hrest].
    apply negb_true_iff in Hk.
    apply andb_true_iff in Hfmt. destruct Hfmt as [Hv Hfmt].
    unfold rendered. unfold supports_3f in Hv.
    destruct (format_3f v) as [e|s]; [discriminate|].
    rewrite dict_set_fresh by (apply (Hfresh k v); now left).
    rewrite IH; [now rewrite <- app_assoc|exact Hrest|exact Hfmt|].
    intros k' v' Hin. rewrite dict_mem_app.
    rewrite (Hfresh k' v') by now right. simpl.
    rewrite key_eqb_sym, orb_false_r.
    exact (proj1 (dict_mem_false rest k) Hk k' v' Hin).
Qed.

(** X15: on the coordinator process, for a metrics dictionary whose
    values all support the [.3f] format, the first thing [log_metrics]
    does is one [info] call on the logger it was given, with the step
    counter and a summary that has every metric, in the order of the
    dictionary, under its own key and as its formatted string, numeric
    or not; and the call returns normally. *)
Theorem log_metrics_summary_lists_every_metric :
  forall env completed_steps metrics t,
    is_main_process env = true ->
    dict_wf metrics = true ->
    forallb (fun kv => supports_3f (snd kv)) metrics = true ->
    exists rest,
      log_metrics env completed_steps metrics t =
      (inr tt,
       t ++ ELog LArgument INFO
              (MsgCompleted completed_steps
                 (map (fun kv => (fst kv, VStr (rendered (snd kv)))) metrics))
            :: rest).
Proof.
  intros env steps metrics t Hmain Hwf Hfmt.
  rewrite log_metrics_main by exact Hmain.
  rewrite pretty_items_from by (auto; intros; reflexivity).
  simpl. eexists. reflexivity.
Qed.

Lemma log_metrics_summary_lists_every_metric_witness :
  let env := sample_env true client_up in
  let metrics := [(KStr "loss", VFloat 0.0625%float);
                  (KStr "device", VOther true (Some "cuda:0"));
                  (KStr "step", VInt 12)] in
  is_main_process env = true /\
  dict_wf metrics = true /\
  forallb (fun kv => supports_3f (snd kv)) metrics = true /\
  exists rest,
    log_metrics env 12 metrics [] =
    (inr tt,
     [] ++ ELog LArgument INFO
             (MsgCompleted 12
                [(KStr "loss", VStr "0.062"); (KStr "device", VStr "cuda:0");
                 (KStr "step", VStr "12.000")])
           :: rest).
Proof.
  intros env metrics.
  split; [reflexivity|]. split; [reflexivity|]. split; [reflexivity|].
  exact (log_metrics_summary_lists_every_metric env 12%Z metrics []
           eq_refl eq_refl eq_refl).
Defined.

(** ** [log_time] *)

Lemma key_eqb_str_neq (s : string) (k : pykey) :
  k <> KStr s -> key_eqb (KStr s) k = false.
Proof.
  intro H. destruct (key_eqb (KStr s) k) eqn:E; [|reflexivity].
  now apply key_eqb_str_l in E.
Qed.

(** X16: [log_time] returns the clock reading and leaves in the
    statistics, under the message, the reading less the start time.  A
    measurement already under the message is replaced in its place, a
    new message goes last, and every other entry is as it was. *)
Theorem log_time_records_elapsed :
  forall now start_time stats_dict msg,
    let t := fst (log_time now start_time stats_dict msg) in
    let stats := snd (log_time now start_time stats_dict msg) in
    t = now /\
    dict_get stats (KStr msg) = Some (VFloat (now - start_time)%float) /\
    (forall k, k <> KStr msg -> dict_get stats k = dict_get stats_dict k) /\
    map fst stats
    = (if dict_mem stats_dict (KStr msg) then map fst stats_dict
       else map fst stats_dict ++ [KStr msg]) /\
    (dict_wf stats_dict = true -> dict_wf stats = true).
Proof.
  intros now start_time stats_dict msg. simpl.
  split; [reflexivity|]. split; [|split; [|split]].
  - rewrite dict_get_set. now rewrite key_eqb_refl.
  - intros k Hk. rewrite dict_get_set. now rewrite key_eqb_str_neq.
  - generalize (VFloat (now - start_time)%float) as v.
    intro v. induction stats_dict as [|[k0 v0] d IH]; simpl; [reflexivity|].
    destruct (key_eqb k0 (KStr msg)) eqn:E; simpl; [reflexivity|].
    rewrite IH. now destruct (dict_mem d (KStr msg)).
  - apply dict_set_wf.
Qed.

Lemma log_time_records_elapsed_witness :
  let stats := [(KStr "load", VFloat 1.5%float); (KStr "step", VFloat 0.25%float)] in
  dict_wf stats = true /\
  dict_wf (snd (log_time 12.5%float 10%float stats "step")) = true /\
  snd (log_time 12.5%float 10%float stats "step")
  = [(KStr "load", VFloat 1.5%float); (KStr "step", VFloat 2.5%float)].
Proof.
  intro stats.
  split; [reflexivity|].
  split; [|reflexivity].
  exact (proj2 (proj2 (proj2 (proj2
           (log_time_records_elapsed 12.5%float 10%float stats "step"))))
           eq_refl).
Defined.

(** X17: timing two phases in a row, each from the reading returned for
    the one before.  Under different messages the statistics end with
    both measurements, the second being the difference of the two
    readings; under the same message only the second measurement is
    left. *)
Theorem log_time_consecutive_phases :
  forall now1 now2 start_time stats_dict msg1 msg2,
    let first := log_time now1 start_time stats_dict msg1 in
    let second := log_time now2 (fst first) (snd first) msg2 in
    fst second = now2 /\
    dict_get (snd second) (KStr msg2) = Some (VFloat (now2 - now1)%float) /\
    (String.eqb msg1 msg2 = false ->
     dict_get (snd second) (KStr msg1)
     = Some (VFloat (now1 - start_time)%float)).
Proof.
  intros now1 now2 start_time stats_dict msg1 msg2. simpl.
  split; [reflexivity|]. split.
  - rewrite dict_get_set. now rewrite key_eqb_refl.
  - intro Hne. rewrite !dict_get_set. simpl.
    rewrite String.eqb_sym, Hne. now rewrite String.eqb_refl.
Qed.

Lemma log_time_consecutive_phases_witness :
  let first := log_time 3%float 1%float [] "load" in
  let second := log_time 7.5%float (fst first) (snd first) "train" in
  String.eqb "load" "train" = false /\
  snd second = [(KStr "load", VFloat 2%float); (KStr "train", VFloat 4.5%float)] /\
  dict_get (snd second) (KStr "load") = Some (VFloat (3 - 1)%float).
Proof.
  intros first second.
  split; [reflexivity|]. split; [reflexivity|].
  exact (proj2 (proj2 (log_time_consecutive_phases 3%float 7.5%float 1%float
                         [] "load" "train")) eq_refl).
Defined.
